(** * MelvinOS framebuffer visualizer

    A shallow embedding of [melvin_visualizer_fb.py]: the framebuffer
    device ([FramebufferDisplay]), the scene state and its per-tick update
    ([MelvinVisualizerFB.process_events], [update_nodes]), the projection
    and draw order of the graph panel ([project_node], [render_graph]), the
    ingestion worker ([connect_to_socket], [_run_demo_mode]) and the main
    loop ([run], [main]).

    Conventions of the embedding.
    - A Python [float] is an exact rational ([Q]); rounding, infinities and
      NaN are not represented.  A Python [int] is a [Z].
    - A call that may raise returns a [result]; [Raise e] is the exception
      leaving the call.
    - [math.cos] and [math.sin] are not rational functions: a function that
      calls them on the camera angle takes their two values as arguments. *)

From Stdlib Require Import ZArith QArith Qabs Qminmax Lqa Lia.
From Stdlib Require Import Sorting.Sorted.
From stdpp Require Import gmap strings list.

Local Open Scope Z_scope.

(* ================================================================== *)
(** ** Python prelude *)
(* ================================================================== *)

(** The exceptions that the modelled code can meet.  [KeyboardInterrupt]
    derives from [BaseException] only, so [except Exception] lets it pass. *)
Inductive exn :=
| ValueError | OSError | TypeError | AttributeError
| ZeroDivisionError | StructError | KeyboardInterrupt.

Definition is_Exception (e : exn) : bool :=
  match e with KeyboardInterrupt => false | _ => true end.

Inductive result (A : Type) :=
| Ok (a : A)
| Raise (e : exn).
Arguments Ok {A} a.
Arguments Raise {A} e.

#[global] Instance result_ret : MRet result := fun A a => Ok a.
#[global] Instance result_bind : MBind result := fun A B k r =>
  match r with Ok a => k a | Raise e => Raise e end.

(** [a < b] on floats. *)
Definition Qltb (a b : Q) : bool := negb (Qle_bool b a).

(** [int(q)]: truncation toward zero. *)
Definition int_of_float (q : Q) : Z := Z.quot (Qnum q) (Zpos (Qden q)).

(** [float(n)] for an [int] operand of a float operation. *)
Definition float_of_int (n : Z) : Q := inject_Z n.

(** [a / b] on floats: a zero divisor raises. *)
Definition float_div (a b : Q) : result Q :=
  if Qeq_bool b 0 then Raise ZeroDivisionError else Ok (a / b)%Q.

(** A decoded JSON value, as [json.loads] returns it. *)
#[warnings="-register-all"]
Inductive pyval :=
| PNone
| PBool (b : bool)
| PInt (n : Z)
| PFloat (q : Q)
| PStr (s : string)
| PList (l : list pyval)
| PDict (m : gmap string pyval).

(** [d.get(k, default)]. *)
Definition dict_get (m : gmap string pyval) (k : string) (d : pyval) : pyval :=
  default d (m !! k).

(** [v == s] for a string literal [s]. *)
Definition eq_str (v : pyval) (s : string) : bool :=
  match v with PStr t => String.eqb t s | _ => false end.

(** The numeric value of [v] in a comparison with a float; any other
    operand makes the comparison raise [TypeError]. *)
Definition as_number (v : pyval) : result Q :=
  match v with
  | PBool b => Ok (if b then 1 else 0)%Q
  | PInt n => Ok (float_of_int n)
  | PFloat q => Ok q
  | _ => Raise TypeError
  end.

(** The integer that [v] is equal to as a dictionary key, if any:
    [1], [1.0] and [True] are the same key.  Lists and dictionaries are
    unhashable. *)
Definition as_int_key (v : pyval) : result (option Z) :=
  match v with
  | PBool b => Ok (Some (if b then 1 else 0))
  | PInt n => Ok (Some n)
  | PFloat q =>
      Ok (if Qeq_bool q (float_of_int (int_of_float q))
          then Some (int_of_float q) else None)
  | PNone | PStr _ => Ok None
  | PList _ | PDict _ => Raise TypeError
  end.

(* ================================================================== *)
(** ** Data model *)
(* ================================================================== *)

Record FramebufferInfo := {
  width : Z;
  height : Z;
  bpp : Z;
  line_length : Z
}.

Record LogEntry := {
  timestamp : pyval;
  context_id : pyval;
  event_type : string;
  message : pyval
}.

Record GraphNode := {
  id : Z;
  x : Q;
  y : Q;
  z : Q;
  activation : Q;
  brightness : Q;
  pulse_timer : Q
}.

Record SystemMetrics := {
  cpu_usage : pyval;
  gpu_usage : pyval;
  ram_usage : pyval;
  tick_rate : pyval;
  active_nodes : pyval;
  total_edges : pyval;
  mean_error : pyval;
  status : pyval
}.

(** [SystemMetrics(...)] with the keyword arguments that [process_events]
    passes; the two fields it does not pass take the dataclass defaults. *)
Definition SystemMetrics_init
    (cpu tick nodes edges err st : pyval) : SystemMetrics :=
  {| cpu_usage := cpu;
     gpu_usage := PFloat 0;
     ram_usage := PFloat 0;
     tick_rate := tick;
     active_nodes := nodes;
     total_edges := edges;
     mean_error := err;
     status := st |}.

(** [SystemMetrics()]. *)
Definition SystemMetrics_default : SystemMetrics :=
  SystemMetrics_init (PFloat 0) (PFloat 0) (PInt 0) (PInt 0) (PFloat 0)
                     (PStr "IDLE").

(* ================================================================== *)
(** ** The operating system seen by [FramebufferDisplay] *)
(* ================================================================== *)

(** An [mmap.mmap] object: the mapped bytes, the file position and whether
    [close()] was called on it. *)
Record mmap := {
  data : list Z;
  pos : Z;
  closed : bool
}.

Definition mmap_size (m : mmap) : Z := Z.of_nat (length (data m)).

(** [len(m)]; a closed map raises [ValueError]. *)
Definition mmap_len (m : mmap) : result Z :=
  if closed m then Raise ValueError else Ok (mmap_size m).

(** [bool(m)]: an [mmap] has no [__bool__], so its truth value is
    [len(m) != 0], and raises when [len] does. *)
Definition mmap_truth (m : mmap) : result bool :=
  n ← mmap_len m; mret (negb (n =? 0)).

(** [m.close()]; closing twice is allowed. *)
Definition mmap_close (m : mmap) : mmap :=
  {| data := data m; pos := pos m; closed := true |}.

(** [m.seek(off)]. *)
Definition mmap_seek (m : mmap) (off : Z) : result mmap :=
  if closed m then Raise ValueError
  else if (off <? 0) || (mmap_size m <? off) then Raise ValueError
  else Ok {| data := data m; pos := off; closed := false |}.

(** [m.write(bs)]: the bytes replace those at the position, which
    advances; a write that does not fit raises [ValueError]. *)
Definition mmap_write (m : mmap) (bs : list Z) : result mmap :=
  if closed m then Raise ValueError
  else if (mmap_size m <? pos m)
          || (mmap_size m - pos m <? Z.of_nat (length bs))
  then Raise ValueError
  else Ok {| data := list_inserts (Z.to_nat (pos m)) bs (data m);
             pos := pos m + Z.of_nat (length bs);
             closed := false |}.

(** [struct.pack('BBBB', a, b, c, d)]: each argument must fit a byte. *)
Definition is_byte (n : Z) : bool := (0 <=? n) && (n <=? 255).

Definition pack_BBBB (a b c d : Z) : result (list Z) :=
  if is_byte a && is_byte b && is_byte c && is_byte d
  then Ok [a; b; c; d] else Raise StructError.

(** [os.close(fd)] on the set of open descriptors of the process. *)
Definition os_close (fd : Z) (fds : gset Z) : result (gset Z) :=
  if decide (fd ∈ fds) then Ok (fds ∖ {[fd]}) else Raise OSError.

(** What the device answers to [open()]: the descriptor [os.open] returns,
    the words the two [ioctl] queries leave in the arrays, and the bytes
    that [mmap.mmap] maps for a given size. *)
Record device_env := {
  env_open : result Z;
  env_vinfo : result (list Z);
  env_finfo : result (list Z);
  env_mmap : Z -> result (list Z)
}.

(** A line written to standard output. *)
Inductive line :=
| FbOpened (w h b : Z)
| FbOpenError (e : exn)
| FailedToOpen
| Starting
| Resolution (w h : Z)
| PressCtrlC
| FpsReport
| ShuttingDown
| Banner.

(* ================================================================== *)
(** ** [FramebufferDisplay] *)
(* ================================================================== *)

Record FramebufferDisplay := {
  fb_fd : option Z;
  fb_mem : option mmap;
  info : option FramebufferInfo
}.

(** [FramebufferDisplay()]. *)
Definition FramebufferDisplay_init : FramebufferDisplay :=
  {| fb_fd := None; fb_mem := None; info := None |}.

(** Truth value of [self.fb_mem] and of [self.fb_fd]. *)
Definition fb_mem_truth (self : FramebufferDisplay) : result bool :=
  match fb_mem self with
  | None => Ok false
  | Some m => mmap_truth m
  end.

Definition fb_fd_truth (self : FramebufferDisplay) : bool :=
  match fb_fd self with
  | None => false
  | Some fd => negb (fd =? 0)
  end.

(** [vinfo[i]] in an array that was created with zeros. *)
Definition word (ws : list Z) (i : nat) : Z := nth i ws 0.

(** [FramebufferDisplay.open]: the fields assigned before a failing call
    keep their new value; any [Exception] is caught, reported and turned
    into [False]. *)
Definition open (env : device_env) (self : FramebufferDisplay)
    (fds : gset Z) : result (FramebufferDisplay * gset Z * list line * bool) :=
  let failed self fds e :=
    if is_Exception e then Ok (self, fds, [FbOpenError e], false)
    else Raise e in
  match env_open env with
  | Raise e => failed self fds e
  | Ok fd =>
    let self := {| fb_fd := Some fd; fb_mem := fb_mem self;
                   info := info self |} in
    let fds := {[fd]} ∪ fds in
    match env_vinfo env with
    | Raise e => failed self fds e
    | Ok vinfo =>
      let w := word vinfo 0 in
      let h := word vinfo 1 in
      let b := word vinfo 6 in
      match env_finfo env with
      | Raise e => failed self fds e
      | Ok finfo =>
        let i := {| width := w; height := h; bpp := b;
                    line_length := word finfo 7 |} in
        let self := {| fb_fd := fb_fd self; fb_mem := fb_mem self;
                       info := Some i |} in
        let fb_size := line_length i * height i in
        match env_mmap env fb_size with
        | Raise e => failed self fds e
        | Ok bytes =>
          Ok ({| fb_fd := fb_fd self;
                 fb_mem := Some {| data := bytes; pos := 0; closed := false |};
                 info := info self |},
              fds, [FbOpened w h b], true)
        end
      end
    end
  end.

(** [FramebufferDisplay.close]: neither field is reset. *)
Definition close (self : FramebufferDisplay) (fds : gset Z)
    : result (FramebufferDisplay * gset Z) :=
  t ← fb_mem_truth self;
  let self :=
    if t : bool
    then {| fb_fd := fb_fd self; fb_mem := mmap_close <$> fb_mem self;
            info := info self |}
    else self in
  if fb_fd_truth self then
    fds ← os_close (default 0 (fb_fd self)) fds; mret (self, fds)
  else mret (self, fds).

(** An (r, g, b) colour tuple. *)
Definition color : Type := Z * Z * Z.

(** [n] times [self.fb_mem.write(pixel)]. *)
Fixpoint write_pixels (n : nat) (pixel : list Z) (m : mmap) : result mmap :=
  match n with
  | O => Ok m
  | S n => m ← mmap_write m pixel; write_pixels n pixel m
  end.

Definition with_mem (self : FramebufferDisplay) (m : mmap)
    : FramebufferDisplay :=
  {| fb_fd := fb_fd self; fb_mem := Some m; info := info self |}.

(** [FramebufferDisplay.clear]. *)
Definition clear (self : FramebufferDisplay) (c : color)
    : result FramebufferDisplay :=
  t ← fb_mem_truth self;
  if negb t then mret self else
  match fb_mem self, info self with
  | Some m, Some i =>
    let '(r, g, b) := c in
    pixel ← pack_BBBB b g r 255;
    m ← mmap_seek m 0;
    m ← write_pixels (Z.to_nat (width i * height i)) pixel m;
    mret (with_mem self m)
  | _, _ => Raise AttributeError
  end.

(** [FramebufferDisplay.draw_pixel]. *)
Definition draw_pixel (self : FramebufferDisplay) (px py : Z) (c : color)
    : result FramebufferDisplay :=
  t ← fb_mem_truth self;
  if negb t || (px <? 0) || (py <? 0) then mret self else
  match fb_mem self, info self with
  | Some m, Some i =>
    if (width i <=? px) || (height i <=? py) then mret self else
    let '(r, g, b) := c in
    let offset := py * line_length i + px * 4 in
    m ← mmap_seek m offset;
    pixel ← pack_BBBB b g r 255;
    m ← mmap_write m pixel;
    mret (with_mem self m)
  | _, _ => Raise AttributeError
  end.

(** The four bytes of the mapped buffer at the offset of pixel (px, py). *)
Definition pixel_at (self : FramebufferDisplay) (px py : Z) : option (list Z) :=
  match fb_mem self, info self with
  | Some m, Some i =>
    Some (take 4 (drop (Z.to_nat (py * line_length i + px * 4)) (data m)))
  | _, _ => None
  end.

(* ================================================================== *)
(** ** [MelvinVisualizerFB]: scene state *)
(* ================================================================== *)

(** [self.nodes] is a [dict] and Python dictionaries iterate in insertion
    order, which the stable [sorted] of [render_graph] observes: the
    dictionary is the list of its items, oldest first, with distinct keys. *)
Record MelvinVisualizerFB := {
  fb : FramebufferDisplay;
  entries : list LogEntry;
  nodes : list (Z * GraphNode);
  metrics : SystemMetrics;
  event_queue : list pyval;
  running : bool;
  camera_theta : Q
}.

Definition COLOR_BG : color := (10, 10, 10).
Definition COLOR_TEXT : color := (200, 200, 200).
Definition COLOR_HEADER : color := (0, 200, 255).

(** [deque(maxlen=500)]. *)
Definition entries_maxlen : nat := 500.

(** [MelvinVisualizerFB()]; [init_nodes] is the dictionary that
    [_init_nodes] fills from [math.acos], [math.sin] and [math.cos]. *)
Definition MelvinVisualizerFB_init (init_nodes : list (Z * GraphNode))
    : MelvinVisualizerFB :=
  {| fb := FramebufferDisplay_init;
     entries := [];
     nodes := init_nodes;
     metrics := SystemMetrics_default;
     event_queue := [];
     running := false;
     camera_theta := 0 |}.

(** [self.nodes.values()]. *)
Definition values (self : MelvinVisualizerFB) : list GraphNode :=
  (nodes self).*2.

(** [self.entries.append(entry)] on the bounded deque. *)
Definition entries_append (es : list LogEntry) (e : LogEntry) : list LogEntry :=
  let es := es ++ [e] in
  drop (length es - entries_maxlen)%nat es.

(** The node stored under [key], rewritten by [f]. *)
Fixpoint update_item (key : Z) (f : GraphNode -> GraphNode)
    (items : list (Z * GraphNode)) : list (Z * GraphNode) :=
  match items with
  | [] => []
  | (k, n) :: items =>
    if k =? key then (k, f n) :: items
    else (k, n) :: update_item key f items
  end.

Definition has_key (key : Z) (items : list (Z * GraphNode)) : bool :=
  existsb (fun kn => fst kn =? key) items.

Definition set_activation (a : Q) (n : GraphNode) : GraphNode :=
  {| id := id n; x := x n; y := y n; z := z n;
     activation := a;
     brightness := brightness n;
     pulse_timer := if Qltb 0.8 a then 0.2%Q else pulse_timer n |}.

Definition is_log_type (v : pyval) : option string :=
  match v with
  | PStr t =>
    if bool_decide (t ∈ ["thought"; "perception"; "learning"; "context"])
    then Some t else None
  | _ => None
  end.

(** The body of the loop of [process_events] on one dequeued [event]; [now]
    is what [time.time()] returns. *)
Definition process_event (now : Q) (self : MelvinVisualizerFB)
    (event : pyval) : result MelvinVisualizerFB :=
  match event with
  | PDict ev =>
    let event_type := dict_get ev "type" (PStr "") in
    match is_log_type event_type with
    | Some t =>
      let entry := {| timestamp := dict_get ev "timestamp" (PFloat now);
                      context_id := dict_get ev "context" (PStr "main");
                      event_type := t;
                      message := dict_get ev "text" (PStr "") |} in
      mret {| fb := fb self;
              entries := entries_append (entries self) entry;
              nodes := nodes self; metrics := metrics self;
              event_queue := event_queue self; running := running self;
              camera_theta := camera_theta self |}
    | None =>
      if eq_str event_type "graph_update" then
        key ← as_int_key (dict_get ev "node_id" (PInt 0));
        match key with
        | Some k =>
          if has_key k (nodes self) then
            a ← as_number (dict_get ev "activation" (PFloat 0));
            mret {| fb := fb self; entries := entries self;
                    nodes := update_item k (set_activation a) (nodes self);
                    metrics := metrics self;
                    event_queue := event_queue self; running := running self;
                    camera_theta := camera_theta self |}
          else mret self
        | None => mret self
        end
      else if eq_str event_type "metric" then
        mret {| fb := fb self; entries := entries self; nodes := nodes self;
                metrics := SystemMetrics_init
                  (dict_get ev "cpu" (PInt 0))
                  (dict_get ev "tick_rate" (PInt 0))
                  (dict_get ev "active_nodes" (PInt 0))
                  (dict_get ev "total_edges" (PInt 0))
                  (dict_get ev "mean_error" (PInt 0))
                  (dict_get ev "status" (PStr "IDLE"));
                event_queue := event_queue self; running := running self;
                camera_theta := camera_theta self |}
      else mret self
    end
  | _ => Raise AttributeError
  end.

Definition set_queue (q : list pyval) (self : MelvinVisualizerFB)
    : MelvinVisualizerFB :=
  {| fb := fb self; entries := entries self; nodes := nodes self;
     metrics := metrics self; event_queue := q; running := running self;
     camera_theta := camera_theta self |}.

(** The queue is drained from the front; [fuel] bounds the number of
    events, and the length of the queue is always enough. *)
Fixpoint drain (fuel : nat) (now : Q) (self : MelvinVisualizerFB)
    : result MelvinVisualizerFB :=
  match fuel, event_queue self with
  | S fuel, event :: rest =>
    self ← process_event now (set_queue rest self) event;
    drain fuel now self
  | _, _ => Ok self
  end.

(** [MelvinVisualizerFB.process_events]. *)
Definition process_events (now : Q) (self : MelvinVisualizerFB)
    : result MelvinVisualizerFB :=
  drain (length (event_queue self)) now self.

(** The body of the loop of [update_nodes] on one node. *)
Definition update_node (delta_time : Q) (n : GraphNode) : GraphNode :=
  {| id := id n; x := x n; y := y n; z := z n;
     activation := activation n;
     brightness := (brightness n + (activation n - brightness n) * 0.15)%Q;
     pulse_timer := if Qltb 0 (pulse_timer n)
                    then (pulse_timer n - delta_time)%Q
                    else pulse_timer n |}.

(** [MelvinVisualizerFB.update_nodes]. *)
Definition update_nodes (self : MelvinVisualizerFB) (delta_time : Q)
    : MelvinVisualizerFB :=
  {| fb := fb self; entries := entries self;
     nodes := prod_map (fun k => k) (update_node delta_time) <$> nodes self;
     metrics := metrics self;
     event_queue := event_queue self; running := running self;
     camera_theta := (camera_theta self + delta_time * 0.3)%Q |}.

(* ================================================================== *)
(** ** Projection and the graph panel *)
(* ================================================================== *)

(** The camera distance of [project_node]. *)
Definition distance : Q := 3.

(** Depth of a node in view space: its [z] after the rotation about the
    vertical axis; the camera sits at [-distance] on that axis and looks
    toward increasing depth. *)
Definition z_rot (cos_t sin_t : Q) (n : GraphNode) : Q :=
  (x n * sin_t + z n * cos_t)%Q.

Definition x_rot (cos_t sin_t : Q) (n : GraphNode) : Q :=
  (x n * cos_t - z n * sin_t)%Q.

(** [MelvinVisualizerFB.project_node]; [cos_t] and [sin_t] are
    [math.cos(self.camera_theta)] and [math.sin(self.camera_theta)]. *)
Definition project_node (cos_t sin_t : Q) (n : GraphNode) (w h : Z)
    : result (Z * Z * Q) :=
  scale ← float_div distance (distance + z_rot cos_t sin_t n);
  let screen_x :=
    int_of_float (float_of_int w / 2
                  + x_rot cos_t sin_t n * scale * float_of_int w / 4)%Q in
  let screen_y :=
    int_of_float (float_of_int h / 2
                  - y n * scale * float_of_int h / 3)%Q in
  mret (screen_x, screen_y, scale).

(** [sorted(ns, key=lambda n: n.z)]: the sort is stable and compares keys
    with [<] only.  An element goes before the first later element whose
    key is not smaller than its own. *)
Fixpoint insert_by_z (n : GraphNode) (sorted : list GraphNode)
    : list GraphNode :=
  match sorted with
  | [] => [n]
  | m :: rest =>
    if Qltb (z m) (z n) then m :: insert_by_z n rest
    else n :: m :: rest
  end.

Definition sorted_by_z (ns : list GraphNode) : list GraphNode :=
  foldr insert_by_z [] ns.

(** A call of a drawing primitive of [FramebufferDisplay]. *)
Inductive draw_cmd :=
| DrawRect (x y w h : Z) (c : color) (fill : bool)
| DrawText (x y : Z) (text : string) (c : color) (size : Z)
| DrawCircle (cx cy radius : Z) (c : color) (fill : bool).

(** The body of the loop of [render_graph] on one node: [None] when the
    node is skipped, otherwise the [draw_circle] call. *)
Definition draw_node (cos_t sin_t : Q) (px py w h : Z) (n : GraphNode)
    : result (option draw_cmd) :=
  '(nx, ny, scale) ← project_node cos_t sin_t n w h;
  let nx := nx + px in
  let ny := ny + py in
  if Qltb scale 0 || (nx <? px) || (ny <? py)
     || (px + w <=? nx) || (py + h <=? ny)
  then mret None
  else
    let radius :=
      Z.max 2 (int_of_float (3 * scale * (0.5 + brightness n * 0.5))%Q) in
    let b := int_of_float (brightness n * 255)%Q in
    let c := (0, b, int_of_float (float_of_int b * 0.5)%Q) in
    mret (Some (DrawCircle nx ny radius c true)).

(** The nodes that the loop of [render_graph] draws, in the order it draws
    them, each with its [draw_circle] call. *)
Fixpoint draw_nodes (cos_t sin_t : Q) (px py w h : Z) (ns : list GraphNode)
    : result (list (GraphNode * draw_cmd)) :=
  match ns with
  | [] => Ok []
  | n :: ns =>
    d ← draw_node cos_t sin_t px py w h n;
    rest ← draw_nodes cos_t sin_t px py w h ns;
    mret (match d with Some c => (n, c) :: rest | None => rest end)
  end.

Definition drawn (cos_t sin_t : Q) (self : MelvinVisualizerFB)
    (px py w h : Z) : result (list (GraphNode * draw_cmd)) :=
  draw_nodes cos_t sin_t px py w h (sorted_by_z (values self)).

(** [MelvinVisualizerFB.render_graph]: the calls it makes on [self.fb], in
    order, provided each of them returns.  The calls are listed, not
    executed: [Raise] is an exception of the projection, and an exception
    that a drawing primitive raises on its arguments ([struct.error] for a
    colour component outside 0..255) is outside this function. *)
Definition render_graph (cos_t sin_t : Q) (self : MelvinVisualizerFB)
    (px py w h : Z) : result (list draw_cmd) :=
  ds ← drawn cos_t sin_t self px py w h;
  mret (DrawRect px py w h COLOR_TEXT false
        :: DrawText (px + 10) (py + 10) "BRAIN ACTIVITY" COLOR_HEADER 1
        :: ds.*2).

(* ================================================================== *)
(** ** The ingestion worker *)
(* ================================================================== *)

(** What [json.loads(line)] does with one non-empty line of a read: it
    returns an event, which is put on the queue; it raises
    [json.JSONDecodeError], which the handler around it passes over; or it
    raises another exception ([RecursionError] on deep nesting, say), which
    that handler does not catch. *)
Inductive line_result :=
| Decoded (ev : pyval)
| Rejected
| LineError.

(** What one [sock.recv(4096).decode('utf-8')] gives the loop body: text
    with its non-empty lines, the empty string of a closed peer, or an
    exception. *)
Inductive recv_result :=
| RecvData (lines : list line_result)
| RecvEof
| RecvError.

(** The random draws of one iteration of [_run_demo_mode]. *)
Record demo_draw := {
  u_sleep : Q;
  type_ix : nat;
  text_ix : nat;
  time_now : Q;
  node_ix : Z;
  u_activation : Q;
  u_metric : Q;
  u_cpu : Q;
  u_tick : Q;
  n_active : Z;
  n_edges : Z;
  u_error : Q;
  status_ix : nat
}.

(** Everything outside the worker that it reads: whether the socket can be
    created and connected, the values of [self.running] at the successive
    loop tests, the successive reads and the successive random draws. *)
Record worker_env := {
  socket_ok : bool;
  connect_ok : bool;
  running_at : nat -> bool;
  recv_at : nat -> recv_result;
  demo_at : nat -> demo_draw
}.

(** What the worker does to the outside. *)
Inductive action :=
| ASocket
| AConnect
| ARecv
| APut (event : pyval)
| ASleep (d : Q)
| AClose
| ADemoMode.

Definition messages : list string :=
  ["Analyzing visual input"; "Processing sensory data";
   "Updating neural weights"; "Context shift: environment";
   "Motor planning active"; "Prediction computed"; "Learning adaptation";
   "Attention reoriented"; "Memory consolidation"; "Pattern recognized"].

Definition types : list string :=
  ["thought"; "perception"; "learning"; "context"].

Definition choice (l : list string) (i : nat) : pyval :=
  PStr (nth i l "").

(** The events that one iteration of [_run_demo_mode] puts on the queue. *)
Definition demo_events (d : demo_draw) : list pyval :=
  [ PDict (<["type" := choice types (type_ix d)]>
           (<["text" := choice messages (text_ix d)]>
           (<["context" := PStr "main"]>
           (<["timestamp" := PFloat (time_now d)]> ∅))));
    PDict (<["type" := PStr "graph_update"]>
           (<["node_id" := PInt (node_ix d)]>
           (<["activation" := PFloat (u_activation d)]> ∅))) ]
  ++ (if Qltb (u_metric d) 0.3 then
        [ PDict (<["type" := PStr "metric"]>
                 (<["cpu" := PFloat (30 + u_cpu d * 40)]>
                 (<["tick_rate" := PFloat (15 + u_tick d * 10)]>
                 (<["active_nodes" := PInt (n_active d)]>
                 (<["total_edges" := PInt (n_edges d)]>
                 (<["mean_error" := PFloat (u_error d * 0.1)]>
                 (<["status" := choice ["ACTIVE"; "LEARNING"] (status_ix d)]>
                  ∅))))))) ]
      else []).

(** The loop of [_run_demo_mode] from its [k]-th test of [self.running];
    the Boolean tells whether the function returned within [fuel]
    iterations. *)
Fixpoint demo_loop (env : worker_env) (fuel k : nat) : list action * bool :=
  match fuel with
  | O => ([], false)
  | S fuel =>
    if running_at env k then
      let d := demo_at env k in
      let '(acts, fin) := demo_loop env fuel (S k) in
      (ASleep (0.4 + u_sleep d * 0.4) :: (APut <$> demo_events d) ++ acts, fin)
    else ([], true)
  end.

Definition _run_demo_mode (env : worker_env) (fuel : nat)
    : list action * bool :=
  let '(acts, fin) := demo_loop env fuel 0 in (ADemoMode :: acts, fin).

(** The [for line in ...] loop over the lines of one read: a line that
    decodes is put, a line rejected with [JSONDecodeError] is passed over,
    and another exception leaves the loop for the [except Exception] of
    the read, which sleeps one second. *)
Fixpoint put_lines (lines : list line_result) : list action :=
  match lines with
  | [] => []
  | Decoded ev :: lines => APut ev :: put_lines lines
  | Rejected :: lines => put_lines lines
  | LineError :: _ => [ASleep 1]
  end.

(** The read loop of [connect_to_socket] from its [k]-th test of
    [self.running], up to and including [sock.close()]. *)
Fixpoint read_loop (env : worker_env) (fuel k : nat) : list action * bool :=
  match fuel with
  | O => ([], false)
  | S fuel =>
    if running_at env k then
      match recv_at env k with
      | RecvEof => ([ARecv; AClose], true)
      | RecvData lines =>
        let '(acts, fin) := read_loop env fuel (S k) in
        (ARecv :: put_lines lines ++ acts, fin)
      | RecvError =>
        let '(acts, fin) := read_loop env fuel (S k) in
        (ARecv :: ASleep 1 :: acts, fin)
      end
    else ([AClose], true)
  end.

(** [MelvinVisualizerFB.connect_to_socket], the body of the worker thread:
    its actions within [fuel] loop iterations and whether it returned.
    [sock.close()] on the connected socket is taken not to raise. *)
Definition connect_to_socket (env : worker_env) (fuel : nat)
    : list action * bool :=
  if socket_ok env then
    if connect_ok env then
      let '(acts, fin) := read_loop env fuel 0 in
      (ASocket :: AConnect :: acts, fin)
    else
      let '(acts, fin) := _run_demo_mode env fuel in
      (ASocket :: AConnect :: acts, fin)
  else
    let '(acts, fin) := _run_demo_mode env fuel in
    (ASocket :: acts, fin).

Definition is_connect (a : action) : bool :=
  match a with AConnect => true | _ => false end.
Definition is_demo_mode (a : action) : bool :=
  match a with ADemoMode => true | _ => false end.
Definition is_put (a : action) : bool :=
  match a with APut _ => true | _ => false end.
Definition is_recv (a : action) : bool :=
  match a with ARecv => true | _ => false end.

(** The actions of the synthetic generator once it is entered. *)
Definition is_demo_action (a : action) : bool :=
  match a with ASleep _ | APut _ => true | _ => false end.

Definition count (p : action -> bool) (acts : list action) : nat :=
  length (filter (fun a => p a = true) acts).

(* ================================================================== *)
(** ** The main loop *)
(* ================================================================== *)

(** How one iteration of the loop of [run] ends: its body
    ([process_events], [update_nodes], [render_frame], the report, the
    sleep) completes, a [KeyboardInterrupt] arrives in it, or it raises. *)
Inductive tick :=
| Completed
| Interrupted
| Failed (e : exn).

(** How [run] and the process end; [Running] when the loop outlives the
    ticks supplied. *)
Inductive ending :=
| Returned
| Uncaught (e : exn)
| Running.

(** What a run of the program amounts to: how it ends, the frames
    rendered, the worker threads started, the lines printed and the state
    of the device. *)
Record run_result := {
  ending_of : ending;
  frames : nat;
  workers : nat;
  stdout : list line;
  fb_after : FramebufferDisplay;
  fds_after : gset Z
}.

(** The [while self.running] loop of [run] inside its [try]: the number of
    frames rendered, the lines printed and how the [try] block is left
    ([Returned] after the handler of [KeyboardInterrupt]). *)
Fixpoint main_loop (ticks : list tick) (frame_count : nat)
    : ending * nat * list line :=
  match ticks with
  | [] => (Running, frame_count, [])
  | Completed :: ticks =>
    let frame_count := S frame_count in
    let '(e, n, out) := main_loop ticks frame_count in
    (e, n, (if (frame_count mod 30 =? 0)%nat then [FpsReport] else []) ++ out)
  | Interrupted :: _ => (Returned, frame_count, [ShuttingDown])
  | Failed e :: _ =>
    if is_Exception e then (Uncaught e, frame_count, [])
    else (Returned, frame_count, [ShuttingDown])
  end.

(** [MelvinVisualizerFB.run]. *)
Definition run (env : device_env) (self : MelvinVisualizerFB)
    (fds : gset Z) (ticks : list tick) : run_result :=
  match open env (fb self) fds with
  | Raise e =>
    {| ending_of := Uncaught e; frames := 0; workers := 0; stdout := [];
       fb_after := fb self; fds_after := fds |}
  | Ok (fb1, fds1, out, false) =>
    {| ending_of := Returned; frames := 0; workers := 0;
       stdout := out ++ [FailedToOpen];
       fb_after := fb1; fds_after := fds1 |}
  | Ok (fb1, fds1, out, true) =>
    let w := default 0 (width <$> info fb1) in
    let h := default 0 (height <$> info fb1) in
    let out := out ++ [Starting; Resolution w h; PressCtrlC] in
    let '(e, n, out_loop) := main_loop ticks 0 in
    match e with
    | Running =>
      {| ending_of := Running; frames := n; workers := 1;
         stdout := out ++ out_loop;
         fb_after := fb1; fds_after := fds1 |}
    | _ =>
      match close fb1 fds1 with
      | Ok (fb2, fds2) =>
        {| ending_of := e; frames := n; workers := 1;
           stdout := out ++ out_loop;
           fb_after := fb2; fds_after := fds2 |}
      | Raise e' =>
        {| ending_of := Uncaught e'; frames := n; workers := 1;
           stdout := out ++ out_loop;
           fb_after := fb1; fds_after := fds1 |}
      end
    end
  end.

(** [main]. *)
Definition main (env : device_env) (init_nodes : list (Z * GraphNode))
    (fds : gset Z) (ticks : list tick) : run_result :=
  let r := run env (MelvinVisualizerFB_init init_nodes) fds ticks in
  {| ending_of := ending_of r; frames := frames r; workers := workers r;
     stdout := Banner :: stdout r;
     fb_after := fb_after r; fds_after := fds_after r |}.

(** The exit status of the interpreter: 0 when the script runs to its end,
    1 when an exception is left uncaught. *)
Definition exit_status (e : ending) : option Z :=
  match e with
  | Returned => Some 0
  | Uncaught _ => Some 1
  | Running => None
  end.

(* ================================================================== *)
(** ** Predicates of the statements and sample inputs *)
(* ================================================================== *)

(** The order of [sorted(..., key=lambda n: n.z)]. *)
Definition z_le (a b : GraphNode) : Prop := (z a <= z b)%Q.

Definition in_unit (q : Q) : Prop := (0 <= q <= 1)%Q.

(** [c] lies in the closed interval spanned by [a] and [b]. *)
Definition between (a b c : Q) : Prop := (Qmin a b <= c <= Qmax a b)%Q.

Definition smooth_ok (n : GraphNode) : Prop :=
  in_unit (activation n) /\ in_unit (brightness n).

(** One smoothing step from [n] to [n']: the target is kept, the new
    brightness is the value of the expression of the code,
    [brightness + (activation - brightness) * 0.15], it lies between the
    old brightness and the target, and it is no farther from the target
    than the old brightness was. *)
Definition smooth_step (n n' : GraphNode) : Prop :=
  activation n' = activation n
  /\ (brightness n'
      == brightness n + (activation n - brightness n) * 0.15)%Q
  /\ between (brightness n) (activation n) (brightness n')
  /\ (Qabs (activation n - brightness n')
      <= Qabs (activation n - brightness n))%Q.

Definition mk_node (i : Z) (px py pz a b p : Q) : GraphNode :=
  {| id := i; x := px; y := py; z := pz;
     activation := a; brightness := b; pulse_timer := p |}.

(** A scene with the given nodes, keyed by their identifiers. *)
Definition scene (ns : list GraphNode) : MelvinVisualizerFB :=
  MelvinVisualizerFB_init ((fun n => (id n, n)) <$> ns).

(** A node whose pulse has a quarter of a second left. *)
Definition pulsing : GraphNode := mk_node 0 0 0 1 0 0 (1#4).

(** A node that starts dark with full activation. *)
Definition lit : GraphNode := mk_node 0 0 0 1 1 0 0.

(** Two nodes on the axis of view, the bright one nearer to the camera
    than the dark one, and the graph panel of an 800x600 display. *)
Definition near_node : GraphNode := mk_node 0 0 0 (-1#2) 1 1 0.
Definition far_node : GraphNode := mk_node 1 0 0 (1#2) 0 0 0.

(** The node of the projection example and a node at [z = -distance]. *)
Definition unit_x_node : GraphNode := mk_node 0 1 0 0 0 0 0.
Definition behind_node : GraphNode := mk_node 0 0 0 (-3) 0 0 0.

(** A metric record that also carries the [gpu] and [ram] fields of the
    wire format. *)
Definition metric_record : gmap string pyval :=
  <["type" := PStr "metric"]>
  (<["cpu" := PFloat 55.2]>
  (<["gpu" := PFloat 80]>
  (<["ram" := PFloat 70]>
  (<["tick_rate" := PInt 20]>
  (<["active_nodes" := PInt 30]>
  (<["total_edges" := PInt 120]>
  (<["mean_error" := PFloat 0.01]>
  (<["status" := PStr "ACTIVE"]> ∅)))))))).

(** A device of [w] x [h] pixels of 32 bits with rows of [stride] bytes,
    whose memory reads as zeros and whose descriptor is 3. *)
Definition device (w h stride : Z) : device_env :=
  {| env_open := Ok 3;
     env_vinfo := Ok [w; h; 0; 0; 0; 0; 32];
     env_finfo := Ok [0; 0; 0; 0; 0; 0; 0; stride];
     env_mmap := fun size => Ok (replicate (Z.to_nat size) 0) |}.

(** A device that cannot be opened. *)
Definition no_device : device_env :=
  {| env_open := Raise OSError;
     env_vinfo := Raise OSError;
     env_finfo := Raise OSError;
     env_mmap := fun _ => Raise OSError |}.

(** The display object after [open()] on [device w h stride]. *)
Definition opened (w h stride : Z) : FramebufferDisplay :=
  {| fb_fd := Some 3;
     fb_mem := Some {| data := replicate (Z.to_nat (stride * h)) 0;
                       pos := 0; closed := false |};
     info := Some {| width := w; height := h; bpp := 32;
                     line_length := stride |} |}.

(** The device fails at startup with [e]: in [os.open], in one of the two
    geometry queries, or in [mmap.mmap]. *)
Inductive startup_failure (env : device_env) (e : exn) : Prop :=
| open_fails :
    env_open env = Raise e -> startup_failure env e
| vinfo_fails fd :
    env_open env = Ok fd -> env_vinfo env = Raise e ->
    startup_failure env e
| finfo_fails fd vinfo :
    env_open env = Ok fd -> env_vinfo env = Ok vinfo ->
    env_finfo env = Raise e -> startup_failure env e
| mmap_fails fd vinfo finfo :
    env_open env = Ok fd -> env_vinfo env = Ok vinfo ->
    env_finfo env = Ok finfo ->
    env_mmap env (word finfo 7 * word vinfo 1) = Raise e ->
    startup_failure env e.

(** A feed whose endpoint refuses the connection, and a feed that delivers
    one record and then ends; [self.running] stays true, and the random
    draws are constant. *)
Definition a_draw : demo_draw :=
  {| u_sleep := 0.5; type_ix := 0; text_ix := 0; time_now := 0;
     node_ix := 7; u_activation := 0.9; u_metric := 0.1; u_cpu := 0.5;
     u_tick := 0.5; n_active := 20; n_edges := 100; u_error := 0.5;
     status_ix := 0 |}.

Definition refused_feed : worker_env :=
  {| socket_ok := true; connect_ok := false;
     running_at := fun _ => true;
     recv_at := fun _ => RecvError;
     demo_at := fun _ => a_draw |}.

Definition short_feed : worker_env :=
  {| socket_ok := true; connect_ok := true;
     running_at := fun _ => true;
     recv_at := fun k => match k with
                         | O => RecvData [Decoded (PDict metric_record); Rejected]
                         | _ => RecvEof
                         end;
     demo_at := fun _ => a_draw |}.

(* ================================================================== *)
(** ** Drawing primitives built on [draw_pixel] *)
(* ================================================================== *)

(** [range(a, b)]. *)
Definition range (a b : Z) : list Z := seqZ a (b - a).

(** A [for] loop over [l] whose body may raise. *)
Fixpoint for_each {A S : Type} (l : list A) (body : S -> A -> result S)
    (s : S) : result S :=
  match l with
  | [] => Ok s
  | a :: l => s ← body s a; for_each l body s
  end.

(** [self.info], whose fields are read: on a display that was never
    opened it is [None] and the read raises [AttributeError]. *)
Definition info_of (self : FramebufferDisplay) : result FramebufferInfo :=
  match info self with
  | Some i => Ok i
  | None => Raise AttributeError
  end.

(** [FramebufferDisplay.draw_rect]. *)
Definition draw_rect (self : FramebufferDisplay) (px py w h : Z) (c : color)
    (fill : bool) : result FramebufferDisplay :=
  if fill then
    i ← info_of self;
    for_each (range py (Z.min (py + h) (height i)))
      (fun self qy =>
         i ← info_of self;
         for_each (range px (Z.min (px + w) (width i)))
           (fun self qx => draw_pixel self qx qy c) self)
      self
  else
    i ← info_of self;
    self ← for_each (range px (Z.min (px + w) (width i)))
      (fun self qx =>
         self ← draw_pixel self qx py c;
         draw_pixel self qx (py + h - 1) c)
      self;
    i ← info_of self;
    for_each (range py (Z.min (py + h) (height i)))
      (fun self qy =>
         self ← draw_pixel self px qy c;
         draw_pixel self (px + w - 1) qy c)
      self.

(** The [while True] loop of [draw_line] with the pen at (cx, cy); [None]
    when the loop is still running after [fuel] iterations. *)
Fixpoint line_loop (fuel : nat) (self : FramebufferDisplay)
    (cx cy err x2 y2 dx dy sx sy : Z) (c : color)
    : option (result FramebufferDisplay) :=
  match fuel with
  | O => None
  | S fuel =>
    match draw_pixel self cx cy c with
    | Raise e => Some (Raise e)
    | Ok self =>
      if (cx =? x2) && (cy =? y2) then Some (Ok self)
      else
        let e2 := 2 * err in
        let '(err, cx) :=
          if - dy <? e2 then (err - dy, cx + sx) else (err, cx) in
        let '(err, cy) :=
          if e2 <? dx then (err + dx, cy + sy) else (err, cy) in
        line_loop fuel self cx cy err x2 y2 dx dy sx sy c
    end
  end.

(** [FramebufferDisplay.draw_line]. *)
Definition draw_line (fuel : nat) (self : FramebufferDisplay)
    (x1 y1 x2 y2 : Z) (c : color) : option (result FramebufferDisplay) :=
  let dx := Z.abs (x2 - x1) in
  let dy := Z.abs (y2 - y1) in
  let sx := if x1 <? x2 then 1 else -1 in
  let sy := if y1 <? y2 then 1 else -1 in
  let err := dx - dy in
  line_loop fuel self x1 y1 err x2 y2 dx dy sx sy c.

(** [FramebufferDisplay._draw_char]; [ch] is [ord(char)]. *)
Definition _draw_char (self : FramebufferDisplay) (px py ch : Z) (c : color)
    (size : Z) : result FramebufferDisplay :=
  if (32 <=? ch) && (ch <=? 126) then
    for_each (range 0 (8 * size))
      (fun self qy =>
         for_each (range 0 (8 * size))
           (fun self qx =>
              if ((qx / size) mod 2 =? 0) && ((qy / size) mod 2 =? 0)
              then draw_pixel self (px + qx) (py + qy) c
              else mret self)
           self)
      self
  else mret self.

(** The loop of [draw_text] from the [k]-th character on. *)
Fixpoint draw_text_from (k : Z) (self : FramebufferDisplay) (px py : Z)
    (text : list Z) (c : color) (size : Z) : result FramebufferDisplay :=
  match text with
  | [] => Ok self
  | ch :: text =>
    let char_x := px + k * 8 * size in
    i ← info_of self;
    if width i <=? char_x then mret self
    else
      self ← _draw_char self char_x py ch c size;
      draw_text_from (k + 1) self px py text c size
  end.

(** [FramebufferDisplay.draw_text]; the text is the list of the code
    points of its characters. *)
Definition draw_text (self : FramebufferDisplay) (px py : Z) (text : list Z)
    (c : color) (size : Z) : result FramebufferDisplay :=
  draw_text_from 0 self px py text c size.

(** The four bytes that a pixel of colour [c] holds. *)
Definition pixel_bytes (c : color) : list Z :=
  let '(r, g, b) := c in [b; g; r; 255].

Definition color_ok (c : color) : Prop :=
  let '(r, g, b) := c in
  is_byte r = true /\ is_byte g = true /\ is_byte b = true.

Definition in_display (i : FramebufferInfo) (qx qy : Z) : Prop :=
  0 <= qx < width i /\ 0 <= qy < height i.

(** An opened display of geometry [i]: the mapping is live, holds at
    least [line_length * height] bytes, and a row holds its pixels. *)
Definition fb_ok (self : FramebufferDisplay) (i : FramebufferInfo) : Prop :=
  info self = Some i
  /\ 0 < width i /\ 0 < height i /\ 4 * width i <= line_length i
  /\ exists m, fb_mem self = Some m /\ closed m = false
               /\ line_length i * height i <= mmap_size m.

(** From [self] to [self'] the pixels of the display selected by [P] took
    the colour [c] and the others kept their bytes. *)
Definition paints (c : color) (i : FramebufferInfo)
    (self self' : FramebufferDisplay) (P : Z -> Z -> bool) : Prop :=
  fb_ok self' i
  /\ fb_fd self' = fb_fd self
  /\ forall qx qy, in_display i qx qy ->
       pixel_at self' qx qy
       = if P qx qy then Some (pixel_bytes c) else pixel_at self qx qy.

(** The characters that [_draw_char] draws, and the pixels of the
    checkerboard cell of [8 * size] pixels whose corner is (px, py). *)
Definition printable (ch : Z) : bool := (32 <=? ch) && (ch <=? 126).

Definition cell (px py size qx qy : Z) : bool :=
  (px <=? qx) && (qx <? px + 8 * size)
  && (py <=? qy) && (qy <? py + 8 * size)
  && (((qx - px) / size) mod 2 =? 0) && (((qy - py) / size) mod 2 =? 0).

(** The pixels of the cells of the printable characters of a text whose
    first character is the [k]-th of the line. *)
Fixpoint text_cells (k px py : Z) (text : list Z) (size qx qy : Z) : bool :=
  match text with
  | [] => false
  | ch :: text =>
    (printable ch && cell (px + k * 8 * size) py size qx qy)
    || text_cells (k + 1) px py text size qx qy
  end.

(** The entry that [process_events] appends for a log record [ev] of
    type [t]. *)
Definition log_entry (now : Q) (ev : gmap string pyval) (t : string)
    : LogEntry :=
  {| timestamp := dict_get ev "timestamp" (PFloat now);
     context_id := dict_get ev "context" (PStr "main");
     event_type := t;
     message := dict_get ev "text" (PStr "") |}.

(** [ev] is a log record of type [t]. *)
Definition is_log_record (ev : gmap string pyval) (t : string) : Prop :=
  is_log_type (dict_get ev "type" (PStr "")) = Some t.

(** What events leave alone in a node: identity, position, brightness. *)
Definition same_place (n n' : GraphNode) : Prop :=
  id n' = id n /\ x n' = x n /\ y n' = y n /\ z n' = z n
  /\ brightness n' = brightness n.

(** The nodes whose key [z] equals [q]. *)
Definition with_z (q : Q) (l : list GraphNode) : list GraphNode :=
  filter (fun n => Qeq_bool (z n) q = true) l.

(** Two nodes that differ at most in their pulse timer. *)
Definition same_look (n n' : GraphNode) : Prop :=
  id n' = id n /\ x n' = x n /\ y n' = y n /\ z n' = z n
  /\ activation n' = activation n /\ brightness n' = brightness n.

(** A graph update for node 0 with an activation above the pulse
    threshold. *)
Definition update_record : gmap string pyval :=
  <["type" := PStr "graph_update"]>
  (<["node_id" := PInt 0]>
  (<["activation" := PFloat 0.9]> ∅)).

(** A magnitude of at most 1, as the cosine and the sine of the camera
    angle and the coordinates of a node on the unit sphere have. *)
Definition in_pm1 (q : Q) : Prop := (-1 <= q <= 1)%Q.

(** A [draw_circle] call that [render_graph] can make in the panel at
    (px, py) of size w x h. *)
Definition circle_in_panel (px py w h : Z) (d : draw_cmd) : Prop :=
  exists cx cy r c,
    d = DrawCircle cx cy r c true
    /\ px <= cx < px + w /\ py <= cy < py + h /\ 2 <= r /\ color_ok c.


(** The events that a trace of the worker puts on the queue, in order. *)
Definition puts_of (acts : list action) : list pyval :=
  omap (fun a => match a with APut ev => Some ev | _ => None end) acts.

(** The lines that a read delivers. *)
Definition lines_of (r : recv_result) : list line_result :=
  match r with RecvData lines => lines | _ => [] end.

(** The lines of a read up to its first line that raises another
    exception than [JSONDecodeError]. *)
Fixpoint before_error (lines : list line_result) : list line_result :=
  match lines with
  | [] => []
  | LineError :: _ => []
  | l :: lines => l :: before_error lines
  end.

(** The event of a line that decodes. *)
Definition event_of (l : line_result) : option pyval :=
  match l with Decoded ev => Some ev | _ => None end.

(** Any pause in the trace lasts one second. *)
Definition sleeps_one (a : action) : Prop :=
  forall d, a = ASleep d -> d = 1%Q.

(** A feed that fails to read once, then delivers, while the visualizer
    shuts down at the third loop test. *)
Definition flaky_feed : worker_env :=
  {| socket_ok := true; connect_ok := true;
     running_at := fun k => (k <? 2)%nat;
     recv_at := fun k => match k with
                         | O => RecvError
                         | _ => RecvData [Rejected; Decoded (PDict update_record)]
                         end;
     demo_at := fun _ => a_draw |}.

(** A feed whose first read holds a line that [json.loads] fails on with
    another exception than [JSONDecodeError], between two lines that
    decode; the peer closes after the second read. *)
Definition crashing_feed : worker_env :=
  {| socket_ok := true; connect_ok := true;
     running_at := fun _ => true;
     recv_at := fun k => match k with
                         | O => RecvData [Decoded (PDict metric_record);
                                          Rejected;
                                          Decoded (PDict update_record);
                                          LineError;
                                          Decoded (PDict metric_record)]
                         | 1%nat => RecvData [Decoded (PDict update_record)]
                         | _ => RecvEof
                         end;
     demo_at := fun _ => a_draw |}.

(** A device that opens but does not answer the geometry query. *)
Definition mute_device : device_env :=
  {| env_open := Ok 3;
     env_vinfo := Raise OSError;
     env_finfo := Raise OSError;
     env_mmap := fun _ => Raise OSError |}.

(* ================================================================== *)
(** ** Per-tick update: pulse timer and brightness *)
(* ================================================================== *)

Lemma Qltb_lt (a b : Q) : Qltb a b = true <-> (a < b)%Q.
Proof.
  unfold Qltb. rewrite negb_true_iff, <- not_true_iff_false, Qle_bool_iff.
  split; [apply Qnot_le_lt | apply Qlt_not_le].
Qed.

Lemma Qltb_ge (a b : Q) : Qltb a b = false <-> (b <= a)%Q.
Proof.
  unfold Qltb. rewrite negb_false_iff. apply Qle_bool_iff.
Qed.

Lemma values_update_nodes (self : MelvinVisualizerFB) (dt : Q) :
  values (update_nodes self dt) = update_node dt <$> values self.
Proof.
  unfold values, update_nodes; cbn.
  induction (nodes self) as [|[k n] l IH]; cbn; [done | by rewrite IH].
Qed.

Lemma update_node_pulse_timer (dt : Q) (n : GraphNode) :
  (0 <= pulse_timer n)%Q -> (0 <= dt)%Q ->
  ((0 < pulse_timer n)%Q ->
     (pulse_timer (update_node dt n) == pulse_timer n - dt)%Q)
  /\ ((pulse_timer n == 0)%Q -> (pulse_timer (update_node dt n) == 0)%Q)
  /\ (Qmax 0 (pulse_timer (update_node dt n))
      == Qmax 0 (pulse_timer n - dt))%Q
  /\ (- dt <= pulse_timer (update_node dt n))%Q.
Proof.
  intros Hp Hdt. cbn.
  destruct (Qltb 0 (pulse_timer n)) eqn:E.
  - apply Qltb_lt in E. repeat split; try reflexivity; try lra.
  - apply Qltb_ge in E.
    assert (Hz : (pulse_timer n == 0)%Q) by lra.
    repeat split; try lra.
    rewrite Hz. rewrite !Q.max_l; lra.
Qed.

(** C2 (as amended).  For a node whose pulse timer is [>= 0] and a
    [delta_time >= 0], one call of [update_nodes] leaves the timer at
    [previous - delta_time] when [previous > 0] and at 0 when
    [previous = 0].  The timer is not clamped: it can be negative, but
    never below [- delta_time], and its positive part is
    [max 0 (previous - delta_time)]. *)
Theorem update_nodes_pulse_timer
    (self : MelvinVisualizerFB) (dt : Q) (k : nat) (n : GraphNode) :
  values self !! k = Some n ->
  (0 <= pulse_timer n)%Q -> (0 <= dt)%Q ->
  exists n', values (update_nodes self dt) !! k = Some n'
    /\ ((0 < pulse_timer n)%Q -> (pulse_timer n' == pulse_timer n - dt)%Q)
    /\ ((pulse_timer n == 0)%Q -> (pulse_timer n' == 0)%Q)
    /\ (Qmax 0 (pulse_timer n') == Qmax 0 (pulse_timer n - dt))%Q
    /\ (- dt <= pulse_timer n')%Q.
Proof.
  intros Hk Hp Hdt. exists (update_node dt n). split.
  - rewrite values_update_nodes, list_lookup_fmap, Hk. done.
  - by apply update_node_pulse_timer.
Qed.

Lemma update_nodes_pulse_timer_witness :
  exists n', values (update_nodes (scene [pulsing]) (1#2)) !! 0%nat = Some n'
    /\ ((0 < pulse_timer pulsing)%Q ->
        (pulse_timer n' == pulse_timer pulsing - (1#2))%Q)
    /\ ((pulse_timer pulsing == 0)%Q -> (pulse_timer n' == 0)%Q)
    /\ (Qmax 0 (pulse_timer n') == Qmax 0 (pulse_timer pulsing - (1#2)))%Q
    /\ (- (1#2) <= pulse_timer n')%Q.
Proof.
  apply (update_nodes_pulse_timer (scene [pulsing]) (1#2) 0 pulsing).
  - reflexivity.
  - vm_compute. discriminate.
  - vm_compute. discriminate.
Defined.

(** C2 (as stated) fails: a timer at 1/4 updated with [delta_time = 1/2]
    becomes -1/4, not [max 0 (1/4 - 1/2) = 0]. *)
Lemma pulse_timer_not_clamped :
  (0 <= pulse_timer pulsing)%Q /\ (0 <= 1#2)%Q
  /\ exists n', values (update_nodes (scene [pulsing]) (1#2)) = [n']
       /\ (pulse_timer n' == - (1#4))%Q
       /\ (pulse_timer n' < 0)%Q
       /\ ~ (pulse_timer n' == Qmax 0 (pulse_timer pulsing - (1#2)))%Q.
Proof.
  split; [vm_compute; discriminate|]. split; [vm_compute; discriminate|].
  eexists. split; [reflexivity|]. cbn.
  split; [reflexivity|]. split; [reflexivity|].
  rewrite Q.max_l by (vm_compute; discriminate).
  vm_compute. discriminate.
Qed.

Lemma update_node_smooth (dt : Q) (n : GraphNode) :
  smooth_ok n -> smooth_ok (update_node dt n) /\ smooth_step n (update_node dt n).
Proof.
  unfold smooth_ok, smooth_step, between, in_unit. cbn.
  intros [[Ha0 Ha1] [Hb0 Hb1]].
  pose proof (Q.le_min_l (brightness n) (activation n)).
  pose proof (Q.le_min_r (brightness n) (activation n)).
  pose proof (Q.le_max_l (brightness n) (activation n)).
  pose proof (Q.le_max_r (brightness n) (activation n)).
  assert (Hgap : (Qabs (activation n
                         - (brightness n
                            + (activation n - brightness n) * 0.15))
                   <= Qabs (activation n - brightness n))%Q).
  { apply Qabs_Qle_condition.
    pose proof (Qle_Qabs (activation n - brightness n)).
    pose proof (Qle_Qabs (- (activation n - brightness n))) as Hopp.
    rewrite Qabs_opp in Hopp. split; lra. }
  destruct (Qlt_le_dec (brightness n) (activation n));
    repeat split; try exact Hgap; lra.
Qed.

Lemma update_nodes_smooth (self : MelvinVisualizerFB) (dt : Q) :
  Forall smooth_ok (values self) ->
  Forall smooth_ok (values (update_nodes self dt))
  /\ Forall2 smooth_step (values self) (values (update_nodes self dt)).
Proof.
  rewrite values_update_nodes.
  induction (values self) as [|n l IH]; intros H; cbn.
  - split; constructor.
  - apply Forall_cons in H as [Hn Hl].
    destruct (IH Hl) as [IH1 IH2].
    destruct (update_node_smooth dt n Hn) as [H1 H2].
    split; constructor; assumption.
Qed.

(** C7.  Starting from nodes whose activation and brightness lie in
    [0,1], after any number of ticks (with any elapsed times) every
    brightness still lies in [0,1], and the next tick moves each brightness
    toward its activation without overshooting: the new value is
    [brightness + (activation - brightness) * 0.15], it lies in the closed
    interval spanned by the previous brightness and the activation, and
    its distance to the activation does not grow. *)
Theorem brightness_smoothing (self : MelvinVisualizerFB) (dts : list Q) :
  Forall smooth_ok (values self) ->
  Forall smooth_ok (values (foldl update_nodes self dts))
  /\ forall dt,
       Forall2 smooth_step
         (values (foldl update_nodes self dts))
         (values (update_nodes (foldl update_nodes self dts) dt)).
Proof.
  revert self. induction dts as [|d dts IH]; intros self H; cbn.
  - split; [assumption|]. intros dt. by apply update_nodes_smooth.
  - apply IH. by apply update_nodes_smooth.
Qed.

Lemma brightness_smoothing_witness :
  Forall smooth_ok (values (foldl update_nodes (scene [lit]) [1#30; 1#30]))
  /\ forall dt,
       Forall2 smooth_step
         (values (foldl update_nodes (scene [lit]) [1#30; 1#30]))
         (values (update_nodes
                    (foldl update_nodes (scene [lit]) [1#30; 1#30]) dt)).
Proof.
  apply (brightness_smoothing (scene [lit]) [1#30; 1#30]).
  repeat constructor; vm_compute; discriminate.
Defined.

(* ================================================================== *)
(** ** Graph panel: projection and draw order *)
(* ================================================================== *)

(** C1 (the code departs from it).  At camera angle 0, in the graph panel
    of an 800x600 display, [render_graph] draws the nearer node first and
    the farther node after it, at the same centre: the node drawn later
    has the strictly larger view-space depth, so the dark far node is
    painted over the bright near one. *)
Theorem render_graph_draws_nearest_first :
  drawn 1 0 (scene [far_node; near_node]) 410 60 380 230
    = Ok [ (near_node, DrawCircle 600 175 3 (0, 255, 127) true);
           (far_node, DrawCircle 600 175 2 (0, 0, 0) true) ]
  /\ (z_rot 1 0 near_node < z_rot 1 0 far_node)%Q
  /\ (distance + z_rot 1 0 near_node == 5 # 2)%Q
  /\ (distance + z_rot 1 0 far_node == 7 # 2)%Q.
Proof.
  split; [vm_compute; reflexivity|].
  repeat split; vm_compute; reflexivity.
Qed.

(** C6 (the code departs from it).  With camera angle 0 and a panel of
    800x600 the node at (1, 0, 0) projects to (600, 300) with scale 1; for
    the node at [z = -distance] the projection divides by zero, and the
    exception leaves [render_graph] instead of the node being skipped. *)
Theorem project_node_at_camera_plane_raises :
  (exists s, project_node 1 0 unit_x_node 800 600 = Ok (600, 300, s)
             /\ (s == 1)%Q)
  /\ project_node 1 0 behind_node 800 600 = Raise ZeroDivisionError
  /\ render_graph 1 0 (scene [behind_node]) 0 0 800 600
       = Raise ZeroDivisionError.
Proof.
  split; [eexists; split; [vm_compute; reflexivity | reflexivity]|].
  split; vm_compute; reflexivity.
Qed.


(** At camera angle 0 the view-space depth of a node is its world [z]. *)
Lemma z_rot_angle_0 (n : GraphNode) : (z_rot 1 0 n == z n)%Q.
Proof. unfold z_rot. ring. Qed.

Lemma insert_by_z_perm (n : GraphNode) (l : list GraphNode) :
  insert_by_z n l ≡ₚ n :: l.
Proof.
  induction l as [|m l IH]; cbn; [done|].
  destruct (Qltb (z m) (z n)); [|done].
  rewrite IH. apply Permutation_swap.
Qed.

Lemma sorted_by_z_perm (l : list GraphNode) : sorted_by_z l ≡ₚ l.
Proof.
  induction l as [|n l IH]; cbn; [done|].
  unfold sorted_by_z in *. cbn. by rewrite insert_by_z_perm, IH.
Qed.

Lemma insert_by_z_sorted (n : GraphNode) (l : list GraphNode) :
  StronglySorted z_le l -> StronglySorted z_le (insert_by_z n l).
Proof.
  induction 1 as [|m l Hs IH Hm]; cbn; [repeat constructor|].
  destruct (Qltb (z m) (z n)) eqn:E.
  - apply Qltb_lt in E. constructor; [assumption|].
    rewrite insert_by_z_perm. constructor; [|assumption].
    unfold z_le. lra.
  - apply Qltb_ge in E. constructor; [by constructor|].
    constructor; [assumption|].
    eapply Forall_impl; [exact Hm|]. unfold z_le. intros; lra.
Qed.

Lemma sorted_by_z_sorted (l : list GraphNode) :
  StronglySorted z_le (sorted_by_z l).
Proof.
  induction l as [|n l IH]; [constructor|].
  by apply insert_by_z_sorted.
Qed.

Lemma draw_nodes_sublist (cos_t sin_t : Q) (px py w h : Z)
    (ns : list GraphNode) (ds : list (GraphNode * draw_cmd)) :
  draw_nodes cos_t sin_t px py w h ns = Ok ds -> ds.*1 `sublist_of` ns.
Proof.
  revert ds. induction ns as [|n ns IH]; intros ds; cbn.
  - intros [= <-]. constructor.
  - destruct (draw_node cos_t sin_t px py w h n) as [d|e]; [|done]. cbn.
    destruct (draw_nodes cos_t sin_t px py w h ns) as [rest|e]; [|done]. cbn.
    intros [= <-]. specialize (IH rest eq_refl).
    destruct d; cbn; by constructor.
Qed.

Lemma StronglySorted_sublist (l k : list GraphNode) :
  l `sublist_of` k -> StronglySorted z_le k -> StronglySorted z_le l.
Proof.
  induction 1 as [|a l k Hsub IH|a l k Hsub IH]; intros Hk.
  - constructor.
  - apply StronglySorted_inv in Hk as [Hk Ha].
    constructor; [by apply IH|].
    rewrite Forall_forall in Ha |- *. intros b Hb. apply Ha.
    by eapply sublist_subseteq.
  - apply StronglySorted_inv in Hk as [Hk _]. by apply IH.
Qed.

(** X17.  What [render_graph] does: whenever it completes, the nodes it drew
    are nodes of the scene, drawn by increasing world [z], whatever the
    camera angle. *)
Lemma drawn_by_increasing_z (cos_t sin_t : Q) (self : MelvinVisualizerFB)
    (px py w h : Z) (ds : list (GraphNode * draw_cmd)) :
  drawn cos_t sin_t self px py w h = Ok ds ->
  StronglySorted z_le ds.*1 /\ ds.*1 ⊆ values self.
Proof.
  intros Hd. apply draw_nodes_sublist in Hd. split.
  - eapply StronglySorted_sublist; [exact Hd | apply sorted_by_z_sorted].
  - intros n Hn. rewrite <- (sorted_by_z_perm (values self)).
    by eapply sublist_subseteq.
Qed.

(* ================================================================== *)
(** ** Metric events *)
(* ================================================================== *)

(** C10.  Processing a metric event succeeds and replaces every field
    of the snapshot, whatever the snapshot was: [cpu_usage], [tick_rate],
    [active_nodes], [total_edges], [mean_error] and [status] become the
    [cpu], [tick_rate], [active_nodes], [total_edges], [mean_error] and
    [status] fields of the event (0, 0, 0, 0, 0 and "IDLE" for a field
    that is absent), and [gpu_usage] and [ram_usage] become 0, whatever
    else the event holds.  The rest of the scene is untouched. *)
Theorem metric_event_replaces_snapshot
    (now : Q) (self : MelvinVisualizerFB) (ev : gmap string pyval) :
  ev !! "type" = Some (PStr "metric") ->
  exists self',
    process_event now self (PDict ev) = Ok self'
    /\ cpu_usage (metrics self') = default (PInt 0) (ev !! "cpu")
    /\ tick_rate (metrics self') = default (PInt 0) (ev !! "tick_rate")
    /\ active_nodes (metrics self') = default (PInt 0) (ev !! "active_nodes")
    /\ total_edges (metrics self') = default (PInt 0) (ev !! "total_edges")
    /\ mean_error (metrics self') = default (PInt 0) (ev !! "mean_error")
    /\ status (metrics self') = default (PStr "IDLE") (ev !! "status")
    /\ gpu_usage (metrics self') = PFloat 0
    /\ ram_usage (metrics self') = PFloat 0
    /\ nodes self' = nodes self /\ entries self' = entries self.
Proof.
  intros Ht.
  assert (Hty : dict_get ev "type" (PStr "") = PStr "metric")
    by (unfold dict_get; rewrite Ht; reflexivity).
  eexists. unfold process_event. rewrite Hty.
  split; [reflexivity|]. cbn. repeat split; reflexivity.
Qed.

Lemma metric_event_replaces_snapshot_witness :
  exists self',
    process_event 0 (scene []) (PDict metric_record) = Ok self'
    /\ cpu_usage (metrics self') = PFloat 55.2
    /\ tick_rate (metrics self') = PInt 20
    /\ active_nodes (metrics self') = PInt 30
    /\ total_edges (metrics self') = PInt 120
    /\ mean_error (metrics self') = PFloat 0.01
    /\ status (metrics self') = PStr "ACTIVE"
    /\ gpu_usage (metrics self') = PFloat 0
    /\ ram_usage (metrics self') = PFloat 0
    /\ nodes self' = nodes (scene []) /\ entries self' = entries (scene []).
Proof.
  apply (metric_event_replaces_snapshot 0 (scene []) metric_record).
  vm_compute. reflexivity.
Defined.

(** The record of the wire format, queued and drained: the snapshot
    takes its [cpu] and [status], not its [gpu]. *)
Lemma process_events_metric_record :
  exists self',
    process_events 0 (set_queue [PDict metric_record] (scene [])) = Ok self'
    /\ cpu_usage (metrics self') = PFloat 55.2
    /\ status (metrics self') = PStr "ACTIVE"
    /\ gpu_usage (metrics self') = PFloat 0
    /\ event_queue self' = [].
Proof. eexists. split; [vm_compute; reflexivity|]. repeat split. Qed.

(** A graph update above 0.8 resets the pulse timer to 0.2, also from a
    larger value. *)
Lemma set_activation_resets_pulse (n : GraphNode) (a : Q) :
  (0.8 < a)%Q -> pulse_timer (set_activation a n) = 0.2%Q.
Proof. intros Ha. cbn. by rewrite (proj2 (Qltb_lt _ _) Ha). Qed.

(* ================================================================== *)
(** ** The display device: open, close, clear *)
(* ================================================================== *)

Lemma open_device (w h stride : Z) (fds : gset Z) :
  open (device w h stride) FramebufferDisplay_init fds
  = Ok (opened w h stride, {[3]} ∪ fds, [FbOpened w h 32], true).
Proof. reflexivity. Qed.

(** A successful [open()] leaves a descriptor that is open in the process
    and a mapping that is not closed. *)
Lemma open_true_inv (env : device_env) (self fb1 : FramebufferDisplay)
    (fds fds1 : gset Z) (out : list line) :
  open env self fds = Ok (fb1, fds1, out, true) ->
  exists fd bytes i,
    fb1 = {| fb_fd := Some fd;
             fb_mem := Some {| data := bytes; pos := 0; closed := false |};
             info := Some i |}
    /\ fd ∈ fds1.
Proof.
  unfold open. intros H.
  destruct (env_open env) as [fd|e]; [|destruct (is_Exception e); discriminate].
  destruct (env_vinfo env) as [vi|e]; [|destruct (is_Exception e); discriminate].
  destruct (env_finfo env) as [fi|e]; [|destruct (is_Exception e); discriminate].
  cbn in H.
  destruct (env_mmap env _) as [bytes|e]; [|destruct (is_Exception e); discriminate].
  injection H as <- <- _. eexists _, _, _. split; [reflexivity|set_solver].
Qed.

Lemma mmap_truth_live (bytes : list Z) (p : Z) :
  mmap_truth {| data := bytes; pos := p; closed := false |}
  = Ok (match bytes with [] => false | _ => true end).
Proof. destruct bytes; reflexivity. Qed.

Lemma not_in_remove (fd : Z) (fds : gset Z) : fd ∉ fds ∖ {[fd]}.
Proof. rewrite elem_of_difference, elem_of_singleton. tauto. Qed.

(** [close()] on a display whose mapping is live: the mapping is closed
    when it is not empty, the descriptor when it is not 0. *)
Lemma close_live (fd : Z) (bytes : list Z) (i : FramebufferInfo)
    (fds : gset Z) :
  close {| fb_fd := Some fd;
           fb_mem := Some {| data := bytes; pos := 0; closed := false |};
           info := Some i |} fds
  = let fb2 :=
      {| fb_fd := Some fd;
         fb_mem := Some {| data := bytes; pos := 0;
                           closed := match bytes with
                                     | [] => false | _ => true end |};
         info := Some i |} in
    if fd =? 0 then Ok (fb2, fds)
    else if decide (fd ∈ fds) then Ok (fb2, fds ∖ {[fd]})
    else Raise OSError.
Proof.
  unfold close, fb_mem_truth, fb_fd_truth, os_close. cbn [fb_mem].
  rewrite mmap_truth_live.
  destruct bytes; cbn -[Z.eqb]; destruct (fd =? 0); cbn;
    try reflexivity; destruct (decide (fd ∈ fds)); reflexivity.
Qed.

(** [close()] on a display whose mapping was closed. *)
Lemma close_dead (fd : option Z) (bytes : list Z) (i : option FramebufferInfo)
    (fds : gset Z) :
  close {| fb_fd := fd;
           fb_mem := Some {| data := bytes; pos := 0; closed := true |};
           info := i |} fds
  = Raise ValueError.
Proof. reflexivity. Qed.

(** C4 (as amended).  [close()] is repeatable without error or effect
    only on a display that was never opened.  After a successful [open()]
    whose mapping is not empty or whose descriptor is not 0, the first
    [close()] succeeds and releases the descriptor and the mapping it
    tested true, and a second [close()] right after it raises. *)
Theorem close_succeeds_once
    (env : device_env) (fds fds1 : gset Z) (fb1 : FramebufferDisplay)
    (out : list line) :
  open env FramebufferDisplay_init fds = Ok (fb1, fds1, out, true) ->
  (exists m, fb_mem fb1 = Some m /\ data m <> []) \/ fb_fd fb1 <> Some 0 ->
  close FramebufferDisplay_init fds = Ok (FramebufferDisplay_init, fds)
  /\ exists fb2 fds2,
       close fb1 fds1 = Ok (fb2, fds2)
       /\ (forall fd, fb_fd fb1 = Some fd -> fd <> 0 -> fd ∉ fds2)
       /\ (forall m, fb_mem fb1 = Some m -> data m <> [] ->
             closed <$> fb_mem fb2 = Some true)
       /\ exists e, close fb2 fds2 = Raise e.
Proof.
  intros Hopen Hres. split; [reflexivity|].
  destruct (open_true_inv _ _ _ _ _ _ Hopen) as (fd & bytes & i & -> & Hfd).
  rewrite close_live. cbn zeta.
  destruct (Z.eqb_spec fd 0) as [->|Hfd0].
  - destruct Hres as [(m & [= <-] & Hm)|Hne]; [|done].
    destruct bytes as [|b bytes]; [done|].
    eexists _, _. split; [reflexivity|].
    split; [intros ? Hs; by injection Hs as <-|].
    split; [intros ? _ _; reflexivity|].
    rewrite close_dead. by eexists.
  - rewrite decide_True by done.
    eexists _, _. split; [reflexivity|].
    split; [intros ? Hs _; injection Hs as <-; apply not_in_remove|].
    split; [intros ? Hs; injection Hs as <-; by destruct bytes|].
    destruct bytes as [|b bytes]; [|rewrite close_dead; by eexists].
    rewrite close_live. cbn zeta.
    destruct (Z.eqb_spec fd 0); [done|].
    rewrite decide_False by apply not_in_remove. by eexists.
Qed.

Lemma close_succeeds_once_witness :
  close FramebufferDisplay_init ∅ = Ok (FramebufferDisplay_init, ∅)
  /\ exists fb2 fds2,
       close (opened 1 2 8) ({[3]} ∪ ∅) = Ok (fb2, fds2)
       /\ (forall fd, fb_fd (opened 1 2 8) = Some fd -> fd <> 0 -> fd ∉ fds2)
       /\ (forall m, fb_mem (opened 1 2 8) = Some m -> data m <> [] ->
             closed <$> fb_mem fb2 = Some true)
       /\ exists e, close fb2 fds2 = Raise e.
Proof.
  apply (close_succeeds_once (device 1 2 8) ∅ ({[3]} ∪ ∅) (opened 1 2 8)
           [FbOpened 1 2 32]).
  - reflexivity.
  - right. vm_compute. discriminate.
Defined.

(** C4 (as stated) fails: on the display that [open()] returns for a
    1x2 device, the first [close()] succeeds and the second one raises
    [ValueError] when it tests the closed mapping. *)
Lemma close_twice_raises :
  open (device 1 2 8) FramebufferDisplay_init ∅
    = Ok (opened 1 2 8, {[3]} ∪ ∅, [FbOpened 1 2 32], true)
  /\ exists fb2 fds2,
       close (opened 1 2 8) ({[3]} ∪ ∅) = Ok (fb2, fds2)
       /\ close fb2 fds2 = Raise ValueError.
Proof.
  split; [reflexivity|].
  eexists _, _. split; [vm_compute; reflexivity|]. reflexivity.
Qed.

(** C5 (the code departs from it).  On a 1x2 device whose rows are 8
    bytes long, [clear((10, 10, 10))] writes the two pixels back to back
    from offset 0: the pixel of row 0 holds the colour, and the pixel of
    row 1, at offset 8, still holds the zeros it had. *)
Theorem clear_misses_padded_rows :
  open (device 1 2 8) FramebufferDisplay_init ∅
    = Ok (opened 1 2 8, {[3]} ∪ ∅, [FbOpened 1 2 32], true)
  /\ exists fb',
       clear (opened 1 2 8) (10, 10, 10) = Ok fb'
       /\ (data <$> fb_mem fb')
          = Some [10; 10; 10; 255; 10; 10; 10; 255; 0; 0; 0; 0; 0; 0; 0; 0]
       /\ pixel_at fb' 0 0 = Some [10; 10; 10; 255]
       /\ pixel_at fb' 0 1 = Some [0; 0; 0; 0].
Proof.
  split; [reflexivity|].
  eexists. split; [vm_compute; reflexivity|].
  repeat split; reflexivity.
Qed.

(** [draw_pixel] on the same device addresses the pixel of row 1 through
    the row length, at offset 8; outside the display it writes nothing. *)
Lemma draw_pixel_uses_line_length :
  (exists fb',
     draw_pixel (opened 1 2 8) 0 1 (10, 10, 10) = Ok fb'
     /\ (data <$> fb_mem fb')
        = Some [0; 0; 0; 0; 0; 0; 0; 0; 10; 10; 10; 255; 0; 0; 0; 0]
     /\ pixel_at fb' 0 1 = Some [10; 10; 10; 255])
  /\ draw_pixel (opened 1 2 8) 1 0 (10, 10, 10) = Ok (opened 1 2 8)
  /\ draw_pixel (opened 1 2 8) 0 (-1) (10, 10, 10) = Ok (opened 1 2 8).
Proof.
  split; [eexists; split; [vm_compute; reflexivity|]; split; reflexivity|].
  split; reflexivity.
Qed.

Lemma bind_Ok {A B} (a : A) (k : A -> result B) : Ok a ≫= k = k a.
Proof. reflexivity. Qed.

Lemma pack_BBBB_bytes (a b c : Z) :
  is_byte a = true -> is_byte b = true -> is_byte c = true ->
  pack_BBBB a b c 255 = Ok [a; b; c; 255].
Proof. intros Ha Hb Hc. unfold pack_BBBB. by rewrite Ha, Hb, Hc. Qed.

Lemma mmap_seek_start (m : mmap) :
  closed m = false ->
  mmap_seek m 0 = Ok {| data := data m; pos := 0; closed := false |}.
Proof.
  intros Hc. unfold mmap_seek, mmap_size. rewrite Hc.
  destruct (Z.ltb_spec (Z.of_nat (length (data m))) 0); [lia|reflexivity].
Qed.

Lemma mmap_write_fits (m : mmap) (bs : list Z) (p : nat) :
  closed m = false -> pos m = Z.of_nat p ->
  (p + length bs <= length (data m))%nat ->
  mmap_write m bs
  = Ok {| data := list_inserts p bs (data m);
          pos := Z.of_nat (p + length bs); closed := false |}.
Proof.
  intros Hc Hp Hfit. unfold mmap_write, mmap_size. rewrite Hc, Hp.
  rewrite (proj2 (Z.ltb_ge _ _)) by lia.
  rewrite (proj2 (Z.ltb_ge _ _)) by lia.
  cbn [orb]. rewrite Nat2Z.id. do 2 f_equal. lia.
Qed.

(** [n] pixels written from position [p]: the bytes before [p] are kept
    and the 4n bytes from [p] on repeat the pixel. *)
Lemma write_pixels_fits (n : nat) (pixel : list Z) (m : mmap) (p : nat) :
  closed m = false -> pos m = Z.of_nat p -> length pixel = 4%nat ->
  (p + 4 * n <= length (data m))%nat ->
  exists d,
    write_pixels n pixel m
    = Ok {| data := d; pos := Z.of_nat (p + 4 * n); closed := false |}
    /\ length d = length (data m)
    /\ (forall j, (j < p)%nat -> d !! j = data m !! j)
    /\ (forall j, (p <= j < p + 4 * n)%nat ->
          d !! j = pixel !! ((j - p) mod 4)%nat).
Proof.
  revert m p. induction n as [|n IH]; intros m p Hc Hp Hlen Hfit.
  - exists (data m). cbn [write_pixels]. rewrite Nat.mul_0_r, Nat.add_0_r, <- Hp.
    split; [by destruct m; cbn in *; subst|].
    split; [done|]. split; [done|]. intros j Hj. lia.
  - cbn [write_pixels].
    rewrite (mmap_write_fits m pixel p) by (done || lia). cbn [mbind result_bind].
    destruct (IH {| data := list_inserts p pixel (data m);
                    pos := Z.of_nat (p + length pixel); closed := false |}
                 (p + length pixel)%nat)
      as (d & Hw & Hd & Hlt & Hin); cbn [data pos closed]; try done.
    { rewrite length_inserts. lia. }
    cbn [data] in Hd, Hlt. exists d. rewrite length_inserts in Hd.
    split; [rewrite Hw; do 2 f_equal; lia|].
    split; [done|]. split.
    + intros j Hj. rewrite Hlt by lia. by apply list_lookup_inserts_lt.
    + intros j Hj. destruct (decide (j < p + length pixel)%nat) as [Hj'|Hj'].
      * rewrite Hlt by done. rewrite list_lookup_inserts by lia.
        f_equal. rewrite Nat.mod_small; lia.
      * rewrite Hin by lia. f_equal. rewrite Hlen.
        replace (j - p)%nat with ((j - (p + 4)) + 1 * 4)%nat by lia.
        by rewrite Nat.Div0.mod_add.
Qed.

(** X3.  Where the rows are not padded, [clear] does fill every pixel: for a
    live mapping of [line_length * height] bytes with
    [line_length = 4 * width] and a colour of bytes, every pixel of the
    display holds (blue, green, red, 255) afterwards. *)
Lemma clear_fills_unpadded (fd : option Z) (bytes : list Z) (p0 : Z)
    (i : FramebufferInfo) (r g b : Z) :
  line_length i = 4 * width i -> 0 < width i -> 0 < height i ->
  Z.of_nat (length bytes) = line_length i * height i ->
  is_byte r = true -> is_byte g = true -> is_byte b = true ->
  exists fb',
    clear {| fb_fd := fd;
             fb_mem := Some {| data := bytes; pos := p0; closed := false |};
             info := Some i |} (r, g, b) = Ok fb'
    /\ forall px py, 0 <= px < width i -> 0 <= py < height i ->
         pixel_at fb' px py = Some [b; g; r; 255].
Proof.
  intros Hll Hw Hh Hsize Hr Hg Hb.
  unfold clear, fb_mem_truth. cbn [fb_mem info]. rewrite mmap_truth_live.
  destruct bytes as [|b0 bytes]; [cbn in Hsize; nia|].
  set (bs := b0 :: bytes) in *.
  rewrite bind_Ok. cbn [negb].
  rewrite (pack_BBBB_bytes b g r) by done. rewrite bind_Ok.
  rewrite mmap_seek_start by done. rewrite bind_Ok. cbn [data].
  destruct (write_pixels_fits (Z.to_nat (width i * height i)) [b; g; r; 255]
              {| data := bs; pos := 0; closed := false |} 0)
    as (d & Hwp & Hd & _ & Hin); cbn [data pos closed]; try done.
  { lia. }
  rewrite Hwp, bind_Ok. cbn [data] in Hd.
  eexists. split; [reflexivity|].
  intros px py Hpx Hpy. unfold pixel_at, with_mem. cbn [fb_mem info data].
  f_equal.
  set (q := Z.to_nat (py * width i + px)).
  replace (Z.to_nat (py * line_length i + px * 4)) with (4 * q)%nat by (subst q; nia).
  assert (Hq : (4 * q + 4 <= 4 * Z.to_nat (width i * height i))%nat)
    by (subst q; nia).
  apply list_eq. intros t.
  destruct (decide (t < 4)%nat) as [Ht|Ht].
  - rewrite lookup_take_lt, lookup_drop by done.
    rewrite Hin by lia.
    replace (4 * q + t - 0)%nat with (t + q * 4)%nat by lia.
    rewrite Nat.Div0.mod_add, Nat.mod_small; done.
  - rewrite lookup_take_ge by lia.
    symmetry. apply lookup_ge_None_2. cbn. lia.
Qed.

(* ================================================================== *)
(** ** The ingestion worker *)
(* ================================================================== *)

Lemma count_cons (p : action -> bool) (a : action) (l : list action) :
  count p (a :: l) = ((if p a then 1 else 0) + count p l)%nat.
Proof.
  unfold count. rewrite filter_cons.
  destruct (p a); [rewrite decide_True by done | rewrite decide_False by done];
    reflexivity.
Qed.

Lemma count_app (p : action -> bool) (l1 l2 : list action) :
  count p (l1 ++ l2) = (count p l1 + count p l2)%nat.
Proof. unfold count. by rewrite filter_app, length_app. Qed.

(** An action of the generator is no connection attempt, no entry into
    demo mode and no read. *)
Lemma count_demo_actions (p : action -> bool) (l : list action) :
  (forall a, is_demo_action a = true -> p a = false) ->
  Forall (fun a => is_demo_action a = true) l -> count p l = 0%nat.
Proof.
  intros Hp. induction 1 as [|a l Ha _ IH]; [reflexivity|].
  rewrite count_cons, IH, (Hp a Ha). reflexivity.
Qed.

Lemma demo_events_puts (d : demo_draw) :
  Forall (fun a => is_demo_action a = true) (APut <$> demo_events d)
  /\ (2 <= count is_put (APut <$> demo_events d))%nat.
Proof.
  unfold demo_events.
  destruct (Qltb (u_metric d) 0.3); cbn [app fmap list_fmap];
    (split;
     [ repeat (apply Forall_cons_2; [reflexivity|]); apply Forall_nil_2
     | rewrite !count_cons; cbn; lia ]).
Qed.

Lemma demo_loop_actions (env : worker_env) (fuel k : nat) :
  Forall (fun a => is_demo_action a = true) (demo_loop env fuel k).1.
Proof.
  revert k. induction fuel as [|fuel IH]; intros k; cbn -[demo_events];
    [constructor|].
  destruct (running_at env k); [|constructor].
  specialize (IH (S k)). destruct (demo_loop env fuel (S k)) as [acts fin].
  cbn -[demo_events] in *. constructor; [reflexivity|].
  apply Forall_app_2; [apply demo_events_puts | assumption].
Qed.

(** While [self.running] stays true the generator neither returns nor
    pauses: each iteration puts at least two events. *)
Lemma demo_loop_runs (env : worker_env) (fuel k : nat) :
  (forall j, running_at env j = true) ->
  (demo_loop env fuel k).2 = false
  /\ (2 * fuel <= count is_put (demo_loop env fuel k).1)%nat.
Proof.
  intros Hrun. revert k.
  induction fuel as [|fuel IH]; intros k; cbn [demo_loop];
    [split; [reflexivity|cbn; lia]|].
  rewrite Hrun. specialize (IH (S k)).
  destruct (demo_loop env fuel (S k)) as [acts fin]. cbn [fst snd] in *.
  destruct IH as [-> IH]. split; [reflexivity|].
  rewrite count_cons, count_app. cbn [is_put].
  pose proof (proj2 (demo_events_puts (demo_at env k))). lia.
Qed.

(** C8.  When the socket is created and the connection attempt fails,
    the worker makes that one attempt, enters the synthetic generator once
    and from then on only sleeps and puts events: it never reads and never
    connects again.  As long as [self.running] stays true the generator
    does not return and puts at least two events per iteration. *)
Theorem connect_failure_falls_back_once (env : worker_env) (fuel : nat) :
  socket_ok env = true -> connect_ok env = false ->
  exists rest,
    (connect_to_socket env fuel).1 = ASocket :: AConnect :: ADemoMode :: rest
    /\ Forall (fun a => is_demo_action a = true) rest
    /\ count is_connect (connect_to_socket env fuel).1 = 1%nat
    /\ count is_demo_mode (connect_to_socket env fuel).1 = 1%nat
    /\ count is_recv (connect_to_socket env fuel).1 = 0%nat
    /\ ((forall j, running_at env j = true) ->
        (connect_to_socket env fuel).2 = false
        /\ (2 * fuel <= count is_put (connect_to_socket env fuel).1)%nat).
Proof.
  intros Hs Hc. unfold connect_to_socket, _run_demo_mode. rewrite Hs, Hc.
  pose proof (demo_loop_actions env fuel 0) as Hacts.
  pose proof (demo_loop_runs env fuel 0) as Hruns.
  destruct (demo_loop env fuel 0) as [acts fin]. cbn [fst snd] in *.
  exists acts. split; [reflexivity|]. split; [assumption|].
  rewrite !count_cons. cbn [is_connect is_demo_mode is_recv is_put].
  rewrite !(count_demo_actions _ acts) by (assumption || by intros []).
  repeat split; try reflexivity; apply Hruns; assumption.
Qed.

Lemma connect_failure_falls_back_once_witness :
  exists rest,
    (connect_to_socket refused_feed 3).1
      = ASocket :: AConnect :: ADemoMode :: rest
    /\ Forall (fun a => is_demo_action a = true) rest
    /\ count is_connect (connect_to_socket refused_feed 3).1 = 1%nat
    /\ count is_demo_mode (connect_to_socket refused_feed 3).1 = 1%nat
    /\ count is_recv (connect_to_socket refused_feed 3).1 = 0%nat
    /\ ((forall j, running_at refused_feed j = true) ->
        (connect_to_socket refused_feed 3).2 = false
        /\ (2 * 3 <= count is_put (connect_to_socket refused_feed 3).1)%nat).
Proof.
  apply (connect_failure_falls_back_once refused_feed 3); reflexivity.
Defined.

Lemma put_lines_demo_actions (lines : list line_result) :
  Forall (fun a => is_demo_action a = true) (put_lines lines).
Proof.
  induction lines as [|[ev| |] lines IH]; cbn [put_lines].
  - apply Forall_nil_2.
  - by apply Forall_cons_2.
  - done.
  - apply Forall_cons_2; [done|apply Forall_nil_2].
Qed.

(** The read loop from its [j]-th test, when the reads [j .. j+k-1] do not
    end the stream and the read [j+k] does. *)
Lemma read_loop_eof (env : worker_env) (k j : nat) :
  (forall i, (j <= i < j + k)%nat ->
     running_at env i = true /\ recv_at env i <> RecvEof) ->
  running_at env (j + k) = true -> recv_at env (j + k) = RecvEof ->
  exists pre,
    (forall fuel, (k < fuel)%nat ->
       read_loop env fuel j = (pre ++ [ARecv; AClose], true))
    /\ count is_demo_mode pre = 0%nat
    /\ count is_connect pre = 0%nat
    /\ count is_recv pre = k.
Proof.
  revert j. induction k as [|k IH]; intros j Hpre Hrun Heof.
  - rewrite Nat.add_0_r in *. exists []. split; [|done].
    intros [|fuel] Hf; [lia|]. cbn. by rewrite Hrun, Heof.
  - destruct (Hpre j ltac:(lia)) as [Hrj Hnj].
    destruct (IH (S j)) as (pre & Hloop & Hd & Hc & Hr).
    + intros i Hi. apply Hpre. lia.
    + by replace (S j + k)%nat with (j + S k)%nat by lia.
    + by replace (S j + k)%nat with (j + S k)%nat by lia.
    + destruct (recv_at env j) as [lines| |] eqn:Hrecv; [|done|].
      * exists (ARecv :: put_lines lines ++ pre).
        split; [|rewrite !count_cons, !count_app, Hd, Hc, Hr].
        -- intros [|fuel] Hf; [lia|]. cbn.
           rewrite Hrj, Hrecv, (Hloop fuel) by lia.
           by rewrite <- app_assoc.
        -- rewrite !(count_demo_actions _ (put_lines lines));
             first [done | by intros [] | apply put_lines_demo_actions].
      * exists (ARecv :: ASleep 1 :: pre).
        split; [|rewrite !count_cons, Hd, Hc, Hr; done].
        intros [|fuel] Hf; [lia|]. cbn.
        by rewrite Hrj, Hrecv, (Hloop fuel) by lia.
Qed.

(** C9.  After a successful connection, once a read returns no data (the
    reads before it did, or raised), the worker closes the socket and
    returns, however long it is allowed to run: its last actions are that
    read and the close, it never enters the synthetic generator, makes no
    second connection attempt, and puts nothing after the empty read. *)
Theorem eof_ends_worker (env : worker_env) (k : nat) :
  socket_ok env = true -> connect_ok env = true ->
  (forall i, (i < k)%nat ->
     running_at env i = true /\ recv_at env i <> RecvEof) ->
  running_at env k = true -> recv_at env k = RecvEof ->
  exists pre,
    (forall fuel, (k < fuel)%nat ->
       connect_to_socket env fuel
       = (ASocket :: AConnect :: pre ++ [ARecv; AClose], true))
    /\ count is_demo_mode pre = 0%nat
    /\ count is_connect pre = 0%nat
    /\ count is_recv pre = k.
Proof.
  intros Hs Hc Hpre Hrun Heof.
  destruct (read_loop_eof env k 0) as (pre & Hloop & Hcounts);
    [intros i Hi; apply Hpre; lia | done | done |].
  exists pre. split; [|assumption].
  intros fuel Hf. unfold connect_to_socket.
  by rewrite Hs, Hc, (Hloop fuel Hf).
Qed.

Lemma eof_ends_worker_witness :
  exists pre,
    (forall fuel, (1 < fuel)%nat ->
       connect_to_socket short_feed fuel
       = (ASocket :: AConnect :: pre ++ [ARecv; AClose], true))
    /\ count is_demo_mode pre = 0%nat
    /\ count is_connect pre = 0%nat
    /\ count is_recv pre = 1%nat.
Proof.
  apply (eof_ends_worker short_feed 1); try reflexivity.
  intros i Hi. assert (i = 0)%nat as -> by lia. split; [reflexivity|discriminate].
Defined.

(* ================================================================== *)
(** ** The main loop and the exit status *)
(* ================================================================== *)

(** A failing device call makes [open()] report the exception and return
    [False]. *)
Lemma open_false_of_failure (env : device_env) (e : exn)
    (self : FramebufferDisplay) (fds : gset Z) :
  startup_failure env e -> is_Exception e = true ->
  exists fb1 fds1, open env self fds = Ok (fb1, fds1, [FbOpenError e], false).
Proof.
  intros Hf He. unfold open.
  destruct Hf as [H1|fd H1 H2|fd vi H1 H2 H3|fd vi fi H1 H2 H3 H4].
  - rewrite H1, He. by eexists _, _.
  - rewrite H1, H2, He. by eexists _, _.
  - rewrite H1, H2, H3, He. by eexists _, _.
  - rewrite H1, H2, H3. cbn [line_length height]. rewrite H4, He.
    by eexists _, _.
Qed.

(** The loop renders one frame per completed tick and leaves through the
    handler of [KeyboardInterrupt] when the interrupt arrives. *)
Lemma main_loop_interrupt (n : nat) (rest : list tick) (frame_count : nat) :
  exists out,
    main_loop (replicate n Completed ++ Interrupted :: rest) frame_count
    = (Returned, (frame_count + n)%nat, out).
Proof.
  revert frame_count. induction n as [|n IH]; intros c; cbn [replicate app].
  - exists [ShuttingDown]. cbn. by rewrite Nat.add_0_r.
  - cbn [main_loop]. destruct (IH (S c)) as [out ->].
    eexists. by replace (S c + n)%nat with (c + S n)%nat by lia.
Qed.

(** After a successful [open()] the [close()] of the [finally] clause does
    not raise. *)
Lemma close_after_open (env : device_env) (self fb1 : FramebufferDisplay)
    (fds fds1 : gset Z) (out : list line) :
  open env self fds = Ok (fb1, fds1, out, true) ->
  exists fb2 fds2, close fb1 fds1 = Ok (fb2, fds2).
Proof.
  intros Hopen.
  destruct (open_true_inv _ _ _ _ _ _ Hopen) as (fd & bytes & i & -> & Hfd).
  rewrite close_live. cbn zeta.
  destruct (fd =? 0); [by eexists _, _|].
  rewrite decide_True by done. by eexists _, _.
Qed.

(** [run] starts the worker thread at most once, and not at all when the
    device does not open. *)
Lemma run_starts_one_worker (env : device_env) (self : MelvinVisualizerFB)
    (fds : gset Z) (ticks : list tick) :
  (workers (run env self fds ticks) <= 1)%nat
  /\ (forall fb1 fds1 out,
        open env (fb self) fds = Ok (fb1, fds1, out, false) ->
        workers (run env self fds ticks) = 0%nat).
Proof.
  unfold run. split.
  - destruct (open env (fb self) fds) as [[[[fb1 fds1] out] []]|e];
      cbn; try lia.
    destruct (main_loop ticks 0) as [[[| |] n] o]; cbn; try lia;
      destruct (close fb1 fds1) as [[? ?]|?]; cbn; lia.
  - intros fb1 fds1 out ->. reflexivity.
Qed.

(** C3 (as amended).  When opening, querying or mapping the device fails
    at startup, the program prints the diagnostics and ends before any
    frame is rendered, and its exit status is 0: [run] returns and [main]
    sets no status.  When the device opens and a keyboard interrupt
    arrives after [n] frames, the program ends after those [n] frames with
    exit status 0. *)
Theorem startup_failure_and_interrupt_exit_zero
    (env : device_env) (init_nodes : list (Z * GraphNode)) (fds : gset Z)
    (ticks : list tick) :
  (forall e, startup_failure env e -> is_Exception e = true ->
     ending_of (main env init_nodes fds ticks) = Returned
     /\ exit_status (ending_of (main env init_nodes fds ticks)) = Some 0
     /\ frames (main env init_nodes fds ticks) = 0%nat
     /\ stdout (main env init_nodes fds ticks)
        = [Banner; FbOpenError e; FailedToOpen])
  /\ (forall n rest fb1 fds1 out,
        open env FramebufferDisplay_init fds = Ok (fb1, fds1, out, true) ->
        ticks = replicate n Completed ++ Interrupted :: rest ->
        ending_of (main env init_nodes fds ticks) = Returned
        /\ exit_status (ending_of (main env init_nodes fds ticks)) = Some 0
        /\ frames (main env init_nodes fds ticks) = n).
Proof.
  split.
  - intros e Hf He.
    destruct (open_false_of_failure env e FramebufferDisplay_init fds Hf He)
      as (fb1 & fds1 & Hopen).
    unfold main, run. cbn [fb MelvinVisualizerFB_init]. rewrite Hopen.
    cbn. done.
  - intros n rest fb1 fds1 out Hopen ->.
    destruct (close_after_open _ _ _ _ _ _ Hopen) as (fb2 & fds2 & Hclose).
    destruct (main_loop_interrupt n rest 0) as [out' Hloop].
    unfold main, run. cbn [fb MelvinVisualizerFB_init].
    rewrite Hopen, Hloop, Hclose. cbn. done.
Qed.

Lemma startup_failure_and_interrupt_exit_zero_witness :
  (ending_of (main no_device [] ∅ [Completed]) = Returned
   /\ exit_status (ending_of (main no_device [] ∅ [Completed])) = Some 0
   /\ frames (main no_device [] ∅ [Completed]) = 0%nat
   /\ stdout (main no_device [] ∅ [Completed])
      = [Banner; FbOpenError OSError; FailedToOpen])
  /\ (ending_of (main (device 1 2 8) [] ∅
                   (replicate 2 Completed ++ [Interrupted])) = Returned
      /\ exit_status (ending_of (main (device 1 2 8) [] ∅
                        (replicate 2 Completed ++ [Interrupted]))) = Some 0
      /\ frames (main (device 1 2 8) [] ∅
                   (replicate 2 Completed ++ [Interrupted])) = 2%nat).
Proof.
  split.
  - apply (proj1 (startup_failure_and_interrupt_exit_zero
                    no_device [] ∅ [Completed]) OSError).
    + apply open_fails. reflexivity.
    + reflexivity.
  - apply (proj2 (startup_failure_and_interrupt_exit_zero
                    (device 1 2 8) [] ∅
                    (replicate 2 Completed ++ [Interrupted]))
             2%nat [] (opened 1 2 8) ({[3]} ∪ ∅) [FbOpened 1 2 32]).
    + reflexivity.
    + reflexivity.
Defined.

(** C3 (as stated) fails: when [os.open] raises, the program prints its
    diagnostics, renders no frame and ends with exit status 0, which is not
    a nonzero status. *)
Lemma startup_failure_exit_status_is_zero :
  startup_failure no_device OSError
  /\ stdout (main no_device [] ∅ [Completed])
     = [Banner; FbOpenError OSError; FailedToOpen]
  /\ frames (main no_device [] ∅ [Completed]) = 0%nat
  /\ exit_status (ending_of (main no_device [] ∅ [Completed])) = Some 0
  /\ ~ (exists c, exit_status (ending_of (main no_device [] ∅ [Completed]))
                  = Some c /\ c <> 0).
Proof.
  split; [apply open_fails; reflexivity|].
  repeat split. intros (c & Hc & Hne). by injection Hc as <-.
Qed.

(* ================================================================== *)
(** ** Pixels: [draw_pixel] and the primitives built on it *)
(* ================================================================== *)

(** A window of four bytes read back from a buffer in which four bytes
    were written at [b]. *)
Lemma window_inserts_same (l k : list Z) (b : nat) :
  length k = 4%nat -> (b + 4 <= length l)%nat ->
  take 4 (drop b (list_inserts b k l)) = k.
Proof.
  intros Hk Hb. apply list_eq. intros t.
  destruct (decide (t < 4)%nat) as [Ht|Ht].
  - rewrite lookup_take_lt, lookup_drop by done.
    rewrite list_lookup_inserts by lia. f_equal. lia.
  - rewrite lookup_take_ge by lia. symmetry. apply lookup_ge_None_2. lia.
Qed.

Lemma window_inserts_other (l k : list Z) (a b : nat) :
  length k = 4%nat -> (a + 4 <= b \/ b + 4 <= a)%nat ->
  take 4 (drop a (list_inserts b k l)) = take 4 (drop a l).
Proof.
  intros Hk Hab. apply list_eq. intros t.
  destruct (decide (t < 4)%nat) as [Ht|Ht].
  - rewrite !lookup_take_lt, !lookup_drop by done.
    destruct Hab; [apply list_lookup_inserts_lt | apply list_lookup_inserts_ge];
      lia.
  - by rewrite !lookup_take_ge by lia.
Qed.

Lemma fb_mem_truth_live (self : FramebufferDisplay) (m : mmap) :
  fb_mem self = Some m -> closed m = false ->
  fb_mem_truth self = Ok (negb (mmap_size m =? 0)).
Proof.
  intros Hm Hc. unfold fb_mem_truth, mmap_truth, mmap_len.
  by rewrite Hm, Hc.
Qed.

(** [draw_pixel] inside the display, on a live mapping that reaches the
    pixel: the call is a seek to the offset and a write of four bytes. *)
Lemma draw_pixel_inside (self : FramebufferDisplay) (m : mmap)
    (i : FramebufferInfo) (px py r g b : Z) :
  fb_mem self = Some m -> closed m = false -> info self = Some i ->
  0 <= px < width i -> 0 <= py < height i -> 0 <= line_length i ->
  py * line_length i + px * 4 + 4 <= mmap_size m ->
  color_ok (r, g, b) ->
  draw_pixel self px py (r, g, b)
  = Ok (with_mem self
          {| data := list_inserts (Z.to_nat (py * line_length i + px * 4))
                       [b; g; r; 255] (data m);
             pos := py * line_length i + px * 4 + 4;
             closed := false |}).
Proof.
  intros Hm Hc Hi Hx Hy Hl Hfit (Hr & Hg & Hb).
  set (off := py * line_length i + px * 4) in *.
  assert (0 <= off) by (subst off; nia).
  unfold draw_pixel. rewrite (fb_mem_truth_live self m Hm Hc), bind_Ok.
  destruct (Z.eqb_spec (mmap_size m) 0) as [Hz|_]; [lia|]. cbn [negb orb].
  destruct (Z.ltb_spec px 0); [lia|]. destruct (Z.ltb_spec py 0); [lia|].
  cbn [orb]. rewrite Hm, Hi.
  destruct (Z.leb_spec (width i) px); [lia|].
  destruct (Z.leb_spec (height i) py); [lia|]. cbn [orb]. fold off.
  unfold mmap_seek. rewrite Hc.
  destruct (Z.ltb_spec off 0); [lia|].
  destruct (Z.ltb_spec (mmap_size m) off); [lia|]. cbn [orb].
  rewrite bind_Ok, (pack_BBBB_bytes b g r) by done. rewrite bind_Ok.
  rewrite (mmap_write_fits _ _ (Z.to_nat off)); cbn [data pos closed length];
    [|done|lia|unfold mmap_size in *; lia].
  rewrite bind_Ok. cbn [mret result_ret]. do 3 f_equal. lia.
Qed.

(** X1.  Inside the display, [draw_pixel] writes exactly the four bytes
    (blue, green, red, 255) at offset [y * line_length + x * 4]: the
    buffer keeps its length and every other byte, and the file position is
    left behind the pixel. *)
Theorem draw_pixel_writes_four_bytes (self : FramebufferDisplay) (m : mmap)
    (i : FramebufferInfo) (px py r g b : Z) :
  fb_mem self = Some m -> closed m = false -> info self = Some i ->
  0 <= px < width i -> 0 <= py < height i -> 0 <= line_length i ->
  py * line_length i + px * 4 + 4 <= mmap_size m ->
  color_ok (r, g, b) ->
  exists m',
    draw_pixel self px py (r, g, b) = Ok (with_mem self m')
    /\ length (data m') = length (data m)
    /\ pos m' = py * line_length i + px * 4 + 4
    /\ closed m' = false
    /\ forall j : nat,
         data m' !! j
         = if decide (py * line_length i + px * 4 <= Z.of_nat j
                      < py * line_length i + px * 4 + 4)
           then [b; g; r; 255]
                  !! (j - Z.to_nat (py * line_length i + px * 4))%nat
           else data m !! j.
Proof.
  intros Hm Hc Hi Hx Hy Hl Hfit Hcol.
  eexists. split; [by apply (draw_pixel_inside self m i)|].
  cbn [data pos closed]. split; [apply length_inserts|].
  split; [done|]. split; [done|].
  intros j. set (off := py * line_length i + px * 4) in *.
  assert (0 <= off) by (subst off; nia).
  unfold mmap_size in Hfit. case_decide as Hj.
  - apply list_lookup_inserts; cbn; lia.
  - destruct (decide (Z.of_nat j < off)).
    + apply list_lookup_inserts_lt. lia.
    + apply list_lookup_inserts_ge. cbn. lia.
Qed.

Lemma draw_pixel_writes_four_bytes_witness :
  exists m',
    draw_pixel (opened 1 2 8) 0 1 (10, 20, 30) = Ok (with_mem (opened 1 2 8) m')
    /\ length (data m') = 16%nat
    /\ pos m' = 12
    /\ closed m' = false
    /\ forall j : nat,
         data m' !! j
         = if decide (8 <= Z.of_nat j < 12)
           then [30; 20; 10; 255] !! (j - 8)%nat
           else replicate 16 0 !! j.
Proof.
  apply (draw_pixel_writes_four_bytes (opened 1 2 8)
           {| data := replicate (Z.to_nat (8 * 2)) 0; pos := 0;
              closed := false |}
           {| width := 1; height := 2; bpp := 32; line_length := 8 |}
           0 1 10 20 30);
    try reflexivity; try (vm_compute; intuition discriminate).
Defined.

(** X2.  Outside the display [draw_pixel] does nothing and raises
    nothing, whatever the colour; the same holds on a display that has no
    mapping. *)
Theorem draw_pixel_outside_is_ignored (self : FramebufferDisplay)
    (i : FramebufferInfo) (px py : Z) (c : color) :
  info self = Some i ->
  (forall m, fb_mem self = Some m -> closed m = false) ->
  ~ in_display i px py ->
  draw_pixel self px py c = Ok self.
Proof.
  intros Hi Hlive Hout. unfold draw_pixel, fb_mem_truth.
  destruct (fb_mem self) as [m|] eqn:Hm; [|reflexivity].
  unfold mmap_truth, mmap_len. rewrite (Hlive m eq_refl), !bind_Ok.
  cbn [mret result_ret].
  destruct (negb (negb (mmap_size m =? 0))); [reflexivity|].
  destruct (Z.ltb_spec px 0); [reflexivity|].
  destruct (Z.ltb_spec py 0); [reflexivity|]. cbn [orb]. rewrite Hi.
  destruct (Z.leb_spec (width i) px); [reflexivity|].
  destruct (Z.leb_spec (height i) py); [reflexivity|].
  exfalso. apply Hout. unfold in_display. lia.
Qed.

Lemma draw_pixel_outside_is_ignored_witness :
  draw_pixel (opened 1 2 8) 1 0 (999, 0, 0) = Ok (opened 1 2 8).
Proof.
  apply (draw_pixel_outside_is_ignored (opened 1 2 8)
           {| width := 1; height := 2; bpp := 32; line_length := 8 |}).
  - reflexivity.
  - intros m Hm. injection Hm as <-. reflexivity.
  - unfold in_display. cbn. lia.
Defined.

Lemma paints_refl (c : color) (i : FramebufferInfo)
    (self : FramebufferDisplay) :
  fb_ok self i -> paints c i self self (fun _ _ => false).
Proof. intros Hok. split; [done|]. split; [done|]. intros; reflexivity. Qed.

Lemma paints_trans (c : color) (i : FramebufferInfo)
    (s0 s1 s2 : FramebufferDisplay) (P1 P2 : Z -> Z -> bool) :
  paints c i s0 s1 P1 -> paints c i s1 s2 P2 ->
  paints c i s0 s2 (fun qx qy => P1 qx qy || P2 qx qy).
Proof.
  intros (_ & Hfd1 & H1) (Hok & Hfd2 & H2).
  split; [done|]. split; [congruence|].
  intros qx qy Hq. rewrite (H2 qx qy Hq), (H1 qx qy Hq).
  by destruct (P1 qx qy), (P2 qx qy).
Qed.

Lemma paints_ext (c : color) (i : FramebufferInfo)
    (s0 s1 : FramebufferDisplay) (P Q : Z -> Z -> bool) :
  (forall qx qy, in_display i qx qy -> P qx qy = Q qx qy) ->
  paints c i s0 s1 P -> paints c i s0 s1 Q.
Proof.
  intros Heq (Hok & Hfd & H). split; [done|]. split; [done|].
  intros qx qy Hq. by rewrite <- (Heq qx qy Hq), (H qx qy Hq).
Qed.

Lemma offset_fits (w h L sz qx qy : Z) :
  0 <= qx < w -> 0 <= qy < h -> 4 * w <= L -> L * h <= sz ->
  0 <= qy * L + qx * 4 /\ qy * L + qx * 4 + 4 <= sz.
Proof.
  intros Hx Hy Hl Hsz.
  assert (0 <= qy * L) by (apply Z.mul_nonneg_nonneg; lia).
  assert ((qy + 1) * L <= h * L)
    by (apply Z.mul_le_mono_nonneg_r; lia).
  lia.
Qed.

Lemma offsets_apart (w h L qx qy px py : Z) :
  0 <= qx < w -> 0 <= qy < h -> 0 <= px < w -> 0 <= py < h -> 4 * w <= L ->
  qx <> px \/ qy <> py ->
  qy * L + qx * 4 + 4 <= py * L + px * 4
  \/ py * L + px * 4 + 4 <= qy * L + qx * 4.
Proof.
  intros Hqx Hqy Hpx Hpy Hl Hne.
  destruct (Z.lt_trichotomy qy py) as [Hlt|[->|Hgt]].
  - left. assert ((qy + 1) * L <= py * L)
      by (apply Z.mul_le_mono_nonneg_r; lia). lia.
  - lia.
  - right. assert ((py + 1) * L <= qy * L)
      by (apply Z.mul_le_mono_nonneg_r; lia). lia.
Qed.

(** On an opened display [draw_pixel] never raises for a colour of bytes,
    and paints the pixel it names and no other. *)
Lemma draw_pixel_paints (c : color) (i : FramebufferInfo)
    (self : FramebufferDisplay) (px py : Z) :
  fb_ok self i -> color_ok c ->
  exists self',
    draw_pixel self px py c = Ok self'
    /\ paints c i self self' (fun qx qy => (qx =? px) && (qy =? py)).
Proof.
  intros Hok Hcol.
  destruct (decide (in_display i px py)) as [Hin|Hout].
  - destruct Hok as (Hi & Hw & Hh & Hl & m & Hm & Hc & Hsz).
    destruct c as [[r g] b]. destruct Hin as [Hx Hy].
    pose proof (offset_fits _ _ _ _ px py Hx Hy Hl Hsz) as Hoff.
    set (off := py * line_length i + px * 4) in *.
    rewrite (draw_pixel_inside self m i) by (done || lia).
    fold off. eexists. split; [reflexivity|].
    split; [|split; [reflexivity|]].
    + split; [done|]. do 3 (split; [done|]).
      eexists. split; [reflexivity|]. split; [reflexivity|].
      unfold mmap_size. cbn [data]. rewrite length_inserts.
      unfold mmap_size in Hsz. lia.
    + intros qx qy [Hqx Hqy]. unfold pixel_at, with_mem.
      cbn [fb_mem info data]. rewrite Hm, Hi.
      pose proof (offset_fits _ _ _ _ qx qy Hqx Hqy Hl Hsz) as Hoffq.
      unfold mmap_size in *.
      destruct (Z.eqb_spec qx px) as [->|Hne];
        [destruct (Z.eqb_spec qy py) as [->|Hne]|]; cbn [andb].
      * f_equal. apply window_inserts_same; [reflexivity|].
        fold off. lia.
      * f_equal. apply window_inserts_other; [reflexivity|].
        pose proof (offsets_apart _ _ _ px qy px py Hqx Hqy Hx Hy Hl
                      (or_intror Hne)).
        subst off. lia.
      * f_equal. apply window_inserts_other; [reflexivity|].
        pose proof (offsets_apart _ _ _ qx qy px py Hqx Hqy Hx Hy Hl
                      (or_introl Hne)).
        subst off. lia.
  - destruct Hok as (Hi & Hw & Hh & Hl & m & Hm & Hc & Hsz).
    rewrite (draw_pixel_outside_is_ignored self i); try done.
    + eexists. split; [reflexivity|].
      eapply paints_ext; [|apply paints_refl].
      * intros qx qy Hq. cbn. symmetry.
        destruct (Z.eqb_spec qx px) as [->|]; [|done].
        destruct (Z.eqb_spec qy py) as [->|]; [|done]. done.
      * split; [done|]. do 3 (split; [done|]). by exists m.
    + intros m' Hm'. congruence.
Qed.

(** A loop whose body paints, from any opened display, the pixels
    selected for its element paints the pixels selected for some element
    of the list. *)
Lemma for_each_paints {A : Type} (c : color) (i : FramebufferInfo)
    (l : list A) (body : FramebufferDisplay -> A -> result FramebufferDisplay)
    (P : A -> Z -> Z -> bool) (self : FramebufferDisplay) :
  (forall s a, a ∈ l -> fb_ok s i ->
     exists s', body s a = Ok s' /\ paints c i s s' (P a)) ->
  fb_ok self i ->
  exists self',
    for_each l body self = Ok self'
    /\ paints c i self self' (fun qx qy => existsb (fun a => P a qx qy) l).
Proof.
  revert self. induction l as [|a l IH]; intros self Hbody Hok.
  - exists self. split; [reflexivity|]. by apply paints_refl.
  - destruct (Hbody self a) as (s1 & Hb & Hp1); [by left|done|].
    destruct (IH s1) as (s2 & Hl & Hp2).
    + intros s a' Ha'. apply Hbody. by right.
    + apply Hp1.
    + exists s2. cbn [for_each]. rewrite Hb, bind_Ok. split; [done|].
      cbn [existsb]. by apply (paints_trans c i self s1 s2).
Qed.

Lemma existsb_range (q lo hi : Z) (g : Z -> bool) :
  existsb (fun a => (q =? a) && g a) (range lo hi)
  = (lo <=? q) && (q <? hi) && g q.
Proof.
  apply eq_true_iff_eq. rewrite existsb_exists. unfold range. split.
  - intros (a & Ha & Hq). apply list_elem_of_In, elem_of_seqZ in Ha.
    apply andb_true_iff in Hq as [Hq Hg]. apply Z.eqb_eq in Hq as ->.
    rewrite Hg, andb_true_r.
    apply andb_true_iff. rewrite Z.leb_le, Z.ltb_lt. lia.
  - intros Hq. apply andb_true_iff in Hq as [Hq Hg].
    apply andb_true_iff in Hq as [Hlo Hhi].
    apply Z.leb_le in Hlo. apply Z.ltb_lt in Hhi. exists q.
    split; [apply list_elem_of_In, elem_of_seqZ; lia|].
    by rewrite Z.eqb_refl.
Qed.

Lemma info_of_ok (self : FramebufferDisplay) (i : FramebufferInfo) :
  fb_ok self i -> info_of self = Ok i.
Proof. intros (Hi & _). unfold info_of. by rewrite Hi. Qed.

(** X4.  On an opened display, and for a colour whose three components
    lie in 0..255, a filled [draw_rect] returns without raising and sets
    exactly the pixels of the display that lie in the rectangle
    [x, x+w) x [y, y+h): a rectangle that crosses the edges is clipped,
    and every other pixel keeps its bytes. *)
Theorem draw_rect_fill_paints (c : color) (i : FramebufferInfo)
    (self : FramebufferDisplay) (px py w h : Z) :
  fb_ok self i -> color_ok c ->
  exists self',
    draw_rect self px py w h c true = Ok self'
    /\ paints c i self self'
         (fun qx qy =>
            (px <=? qx) && (qx <? px + w) && (py <=? qy) && (qy <? py + h)).
Proof.
  intros Hok Hcol. unfold draw_rect.
  rewrite (info_of_ok self i Hok), bind_Ok.
  destruct (for_each_paints c i (range py (Z.min (py + h) (height i)))
              (fun self qy =>
                 i ← info_of self;
                 for_each (range px (Z.min (px + w) (width i)))
                   (fun self qx => draw_pixel self qx qy c) self)
              (fun a qx qy =>
                 (qy =? a) && ((px <=? qx) && (qx <? Z.min (px + w) (width i))))
              self) as (self' & Hrun & Hp); [|done|].
  - intros s a _ Hs. rewrite (info_of_ok s i Hs), bind_Ok.
    destruct (for_each_paints c i (range px (Z.min (px + w) (width i)))
                (fun self qx => draw_pixel self qx a c)
                (fun b qx qy => (qx =? b) && (qy =? a)) s)
      as (s' & Hrow & Hprow); [|done|].
    + intros s0 b _ Hs0. by apply draw_pixel_paints.
    + exists s'. split; [done|]. eapply paints_ext; [|exact Hprow].
      intros qx qy _. cbn beta.
      rewrite (existsb_range qx _ _ (fun _ => qy =? a)).
      by destruct (qy =? a), (px <=? qx), (qx <? Z.min (px + w) (width i)).
  - exists self'. split; [done|]. eapply paints_ext; [|exact Hp].
    intros qx qy [Hqx Hqy]. cbn beta.
    rewrite (existsb_range qy _ _
               (fun _ => (px <=? qx) && (qx <? Z.min (px + w) (width i)))).
    apply eq_true_iff_eq. rewrite !andb_true_iff, !Z.leb_le, !Z.ltb_lt. lia.
Qed.

Lemma draw_rect_fill_paints_witness :
  exists self',
    draw_rect (opened 2 2 8) 1 0 5 5 (10, 20, 30) true = Ok self'
    /\ paints (10, 20, 30)
         {| width := 2; height := 2; bpp := 32; line_length := 8 |}
         (opened 2 2 8) self'
         (fun qx qy =>
            (1 <=? qx) && (qx <? 1 + 5) && (0 <=? qy) && (qy <? 0 + 5)).
Proof.
  apply (draw_rect_fill_paints (10, 20, 30)
           {| width := 2; height := 2; bpp := 32; line_length := 8 |}
           (opened 2 2 8) 1 0 5 5).
  - split; [reflexivity|]. do 3 (split; [cbn; lia|]).
    eexists. split; [reflexivity|]. split; [reflexivity|].
    vm_compute. discriminate.
  - repeat split; reflexivity.
Defined.

(** X5.  On an opened display, and for a colour whose three components
    lie in 0..255, an outline [draw_rect] returns without raising and sets
    exactly the pixels of the display on the rows [y] and [y+h-1] between
    the columns [x] and [x+w), and on the columns [x] and [x+w-1] between
    the rows [y] and [y+h); the interior and the outside keep their
    bytes. *)
Theorem draw_rect_outline_paints (c : color) (i : FramebufferInfo)
    (self : FramebufferDisplay) (px py w h : Z) :
  fb_ok self i -> color_ok c ->
  exists self',
    draw_rect self px py w h c false = Ok self'
    /\ paints c i self self'
         (fun qx qy =>
            ((px <=? qx) && (qx <? px + w)
             && ((qy =? py) || (qy =? py + h - 1)))
            || ((py <=? qy) && (qy <? py + h)
                && ((qx =? px) || (qx =? px + w - 1)))).
Proof.
  intros Hok Hcol. unfold draw_rect.
  rewrite (info_of_ok self i Hok), bind_Ok.
  destruct (for_each_paints c i (range px (Z.min (px + w) (width i)))
              (fun self qx =>
                 self ← draw_pixel self qx py c;
                 draw_pixel self qx (py + h - 1) c)
              (fun a qx qy =>
                 (qx =? a) && ((qy =? py) || (qy =? py + h - 1)))
              self) as (s1 & Hrun1 & Hp1); [|done|].
  { intros s a _ Hs.
    destruct (draw_pixel_paints c i s a py Hs Hcol) as (t1 & Ht1 & Hq1).
    destruct (draw_pixel_paints c i t1 a (py + h - 1) (proj1 Hq1) Hcol)
      as (t2 & Ht2 & Hq2).
    exists t2. rewrite Ht1, bind_Ok. split; [done|].
    eapply paints_ext; [|exact (paints_trans c i s t1 t2 _ _ Hq1 Hq2)].
    intros qx qy _. cbn beta.
    by destruct (qx =? a), (qy =? py), (qy =? py + h - 1). }
  rewrite Hrun1, bind_Ok, (info_of_ok s1 i (proj1 Hp1)), bind_Ok.
  destruct (for_each_paints c i (range py (Z.min (py + h) (height i)))
              (fun self qy =>
                 self ← draw_pixel self px qy c;
                 draw_pixel self (px + w - 1) qy c)
              (fun a qx qy =>
                 (qy =? a) && ((qx =? px) || (qx =? px + w - 1)))
              s1) as (s2 & Hrun2 & Hp2); [|exact (proj1 Hp1)|].
  { intros s a _ Hs.
    destruct (draw_pixel_paints c i s px a Hs Hcol) as (t1 & Ht1 & Hq1).
    destruct (draw_pixel_paints c i t1 (px + w - 1) a (proj1 Hq1) Hcol)
      as (t2 & Ht2 & Hq2).
    exists t2. rewrite Ht1, bind_Ok. split; [done|].
    eapply paints_ext; [|exact (paints_trans c i s t1 t2 _ _ Hq1 Hq2)].
    intros qx qy _. cbn beta.
    by destruct (qy =? a), (qx =? px), (qx =? px + w - 1). }
  exists s2. split; [done|].
  eapply paints_ext; [|exact (paints_trans c i self s1 s2 _ _ Hp1 Hp2)].
  intros qx qy [Hqx Hqy]. cbn beta.
  rewrite (existsb_range qx _ _ (fun _ => (qy =? py) || (qy =? py + h - 1))).
  rewrite (existsb_range qy _ _ (fun _ => (qx =? px) || (qx =? px + w - 1))).
  f_equal; f_equal;
    apply eq_true_iff_eq; rewrite !andb_true_iff, !Z.leb_le, !Z.ltb_lt; lia.
Qed.

Lemma draw_rect_outline_paints_witness :
  exists self',
    draw_rect (opened 2 2 8) 0 0 2 2 (10, 20, 30) false = Ok self'
    /\ paints (10, 20, 30)
         {| width := 2; height := 2; bpp := 32; line_length := 8 |}
         (opened 2 2 8) self'
         (fun qx qy =>
            ((0 <=? qx) && (qx <? 0 + 2)
             && ((qy =? 0) || (qy =? 0 + 2 - 1)))
            || ((0 <=? qy) && (qy <? 0 + 2)
                && ((qx =? 0) || (qx =? 0 + 2 - 1)))).
Proof.
  apply (draw_rect_outline_paints (10, 20, 30)
           {| width := 2; height := 2; bpp := 32; line_length := 8 |}
           (opened 2 2 8) 0 0 2 2).
  - split; [reflexivity|]. do 3 (split; [cbn; lia|]).
    eexists. split; [reflexivity|]. split; [reflexivity|].
    vm_compute. discriminate.
  - repeat split; reflexivity.
Defined.

(** One iteration of the loop of [draw_line], [nx] steps along x and [ny]
    steps along y after the start, with the error term
    [dx * (1 + ny) - dy * (1 + nx)]: before the end point is reached the
    iteration makes a step, and no step leaves the box of the line. *)
Lemma line_step (dx dy nx ny : Z) :
  0 <= nx <= dx -> 0 <= ny <= dy -> nx < dx \/ ny < dy ->
  ((- dy <? 2 * (dx * (1 + ny) - dy * (1 + nx))) = true -> nx < dx)
  /\ ((2 * (dx * (1 + ny) - dy * (1 + nx)) <? dx) = true -> ny < dy)
  /\ ((- dy <? 2 * (dx * (1 + ny) - dy * (1 + nx))) = true
      \/ (2 * (dx * (1 + ny) - dy * (1 + nx)) <? dx) = true).
Proof.
  intros Hx Hy Hnot. rewrite !Z.ltb_lt.
  assert (Hp1 : nx = dx -> 0 <= dx * (dy - 1 - ny))
    by (intros; apply Z.mul_nonneg_nonneg; lia).
  assert (Hp2 : ny = dy -> 0 <= dy * (dx - 1 - nx))
    by (intros; apply Z.mul_nonneg_nonneg; lia).
  split; [|split].
  - intros Hstep. destruct (decide (nx = dx)) as [->|]; [|lia].
    specialize (Hp1 eq_refl). nia.
  - intros Hstep. destruct (decide (ny = dy)) as [->|]; [|lia].
    specialize (Hp2 eq_refl). nia.
  - lia.
Qed.

Lemma line_loop_reaches_end (c : color) (i : FramebufferInfo)
    (x1 y1 x2 y2 dx dy sx sy : Z) :
  color_ok c ->
  0 <= dx -> 0 <= dy -> (sx = 1 \/ sx = -1) -> (sy = 1 \/ sy = -1) ->
  x2 = x1 + sx * dx -> y2 = y1 + sy * dy ->
  forall (fuel : nat) (self : FramebufferDisplay) (nx ny : Z),
    fb_ok self i -> 0 <= nx <= dx -> 0 <= ny <= dy ->
    (dx - nx) + (dy - ny) < Z.of_nat fuel ->
    exists self' P,
      line_loop fuel self (x1 + sx * nx) (y1 + sy * ny)
        (dx * (1 + ny) - dy * (1 + nx)) x2 y2 dx dy sx sy c
      = Some (Ok self')
      /\ paints c i self self' P
      /\ P (x1 + sx * nx) (y1 + sy * ny) = true
      /\ P x2 y2 = true
      /\ forall qx qy, P qx qy = true ->
           exists mx my, 0 <= mx <= dx /\ 0 <= my <= dy
                         /\ qx = x1 + sx * mx /\ qy = y1 + sy * my.
Proof.
  intros Hcol Hdx Hdy Hsx Hsy Hx2 Hy2.
  induction fuel as [|fuel IH]; intros self nx ny Hok Hnx Hny Hfuel; [lia|].
  cbn [line_loop].
  destruct (draw_pixel_paints c i self (x1 + sx * nx) (y1 + sy * ny) Hok Hcol)
    as (s1 & Hdraw & Hp1).
  rewrite Hdraw.
  assert (Hhere : forall qx qy,
            (qx =? x1 + sx * nx) && (qy =? y1 + sy * ny) = true ->
            exists mx my, 0 <= mx <= dx /\ 0 <= my <= dy
                          /\ qx = x1 + sx * mx /\ qy = y1 + sy * my).
  { intros qx qy Hq. apply andb_true_iff in Hq as [Hq1 Hq2].
    apply Z.eqb_eq in Hq1, Hq2. by exists nx, ny. }
  destruct ((x1 + sx * nx =? x2) && (y1 + sy * ny =? y2)) eqn:Hend.
  - apply andb_true_iff in Hend as [Hex Hey].
    apply Z.eqb_eq in Hex, Hey.
    exists s1, (fun qx qy => (qx =? x1 + sx * nx) && (qy =? y1 + sy * ny)).
    split; [done|]. split; [done|].
    split; [by rewrite !Z.eqb_refl|].
    split; [by rewrite <- Hex, <- Hey, !Z.eqb_refl|]. done.
  - assert (Hnot : nx < dx \/ ny < dy).
    { apply andb_false_iff in Hend as [Hne|Hne]; apply Z.eqb_neq in Hne;
        [left|right]; destruct (decide (nx = dx)), (decide (ny = dy));
        subst; try lia; congruence. }
    destruct (line_step dx dy nx ny Hnx Hny Hnot) as (Hsx' & Hsy' & Hsome).
    set (err := dx * (1 + ny) - dy * (1 + nx)) in *.
    destruct (- dy <? 2 * err) eqn:Ebx; destruct (2 * err <? dx) eqn:Eby.
    + destruct (IH s1 (nx + 1) (ny + 1)) as (s2 & P & Hrun & Hp2 & _ & He & Hbox);
        [apply Hp1 | lia | lia | lia |].
      replace (x1 + sx * (nx + 1)) with (x1 + sx * nx + sx) in Hrun by lia.
      replace (y1 + sy * (ny + 1)) with (y1 + sy * ny + sy) in Hrun by lia.
      replace (dx * (1 + (ny + 1)) - dy * (1 + (nx + 1)))
        with (err - dy + dx) in Hrun by (subst err; lia).
      eexists s2, _. split; [exact Hrun|].
      split; [exact (paints_trans c i self s1 s2 _ _ Hp1 Hp2)|]. cbn beta.
      split; [by rewrite !Z.eqb_refl|]. split; [by rewrite He, orb_true_r|].
      intros qx qy Hq. apply orb_true_iff in Hq as [Hq|Hq]; auto.
    + destruct (IH s1 (nx + 1) ny) as (s2 & P & Hrun & Hp2 & _ & He & Hbox);
        [apply Hp1 | lia | lia | lia |].
      replace (x1 + sx * (nx + 1)) with (x1 + sx * nx + sx) in Hrun by lia.
      replace (dx * (1 + ny) - dy * (1 + (nx + 1)))
        with (err - dy) in Hrun by (subst err; lia).
      eexists s2, _. split; [exact Hrun|].
      split; [exact (paints_trans c i self s1 s2 _ _ Hp1 Hp2)|]. cbn beta.
      split; [by rewrite !Z.eqb_refl|]. split; [by rewrite He, orb_true_r|].
      intros qx qy Hq. apply orb_true_iff in Hq as [Hq|Hq]; auto.
    + destruct (IH s1 nx (ny + 1)) as (s2 & P & Hrun & Hp2 & _ & He & Hbox);
        [apply Hp1 | lia | lia | lia |].
      replace (y1 + sy * (ny + 1)) with (y1 + sy * ny + sy) in Hrun by lia.
      replace (dx * (1 + (ny + 1)) - dy * (1 + nx))
        with (err + dx) in Hrun by (subst err; lia).
      eexists s2, _. split; [exact Hrun|].
      split; [exact (paints_trans c i self s1 s2 _ _ Hp1 Hp2)|]. cbn beta.
      split; [by rewrite !Z.eqb_refl|]. split; [by rewrite He, orb_true_r|].
      intros qx qy Hq. apply orb_true_iff in Hq as [Hq|Hq]; auto.
    + destruct Hsome; discriminate.
Qed.

(** X6.  [draw_line] terminates for all end points: on an opened display,
    and for a colour whose three components lie in 0..255, the Bresenham
    loop stops within |x2 - x1| + |y2 - y1| + 1 iterations and returns
    without raising.  It sets the
    pixels of both end points (when they are on the display), sets only
    pixels inside the bounding box of the two end points, and leaves every
    other pixel as it was. *)
Theorem draw_line_reaches_end (c : color) (i : FramebufferInfo)
    (self : FramebufferDisplay) (x1 y1 x2 y2 : Z) (fuel : nat) :
  fb_ok self i -> color_ok c ->
  Z.abs (x2 - x1) + Z.abs (y2 - y1) < Z.of_nat fuel ->
  exists self' P,
    draw_line fuel self x1 y1 x2 y2 c = Some (Ok self')
    /\ paints c i self self' P
    /\ P x1 y1 = true /\ P x2 y2 = true
    /\ forall qx qy, P qx qy = true ->
         Z.min x1 x2 <= qx <= Z.max x1 x2 /\ Z.min y1 y2 <= qy <= Z.max y1 y2.
Proof.
  intros Hok Hcol Hfuel. unfold draw_line.
  set (dx := Z.abs (x2 - x1)) in *. set (dy := Z.abs (y2 - y1)) in *.
  set (sx := if x1 <? x2 then 1 else -1).
  set (sy := if y1 <? y2 then 1 else -1).
  assert (Hsx : (sx = 1 \/ sx = -1) /\ x2 = x1 + sx * dx)
    by (subst sx dx; destruct (Z.ltb_spec x1 x2); lia).
  assert (Hsy : (sy = 1 \/ sy = -1) /\ y2 = y1 + sy * dy)
    by (subst sy dy; destruct (Z.ltb_spec y1 y2); lia).
  destruct (line_loop_reaches_end c i x1 y1 x2 y2 dx dy sx sy Hcol
              ltac:(subst dx; lia) ltac:(subst dy; lia)
              (proj1 Hsx) (proj1 Hsy) (proj2 Hsx) (proj2 Hsy)
              fuel self 0 0 Hok ltac:(subst dx; lia) ltac:(subst dy; lia)
              ltac:(lia))
    as (self' & P & Hrun & Hp & Hstart & Hend & Hbox).
  replace (x1 + sx * 0) with x1 in * by lia.
  replace (y1 + sy * 0) with y1 in * by lia.
  replace (dx * (1 + 0) - dy * (1 + 0)) with (dx - dy) in Hrun by lia.
  exists self', P. split; [done|]. split; [done|].
  split; [done|]. split; [done|].
  intros qx qy Hq. destruct (Hbox qx qy Hq) as (mx & my & Hmx & Hmy & -> & ->).
  destruct Hsx as [[-> | ->] Hx2], Hsy as [[-> | ->] Hy2]; lia.
Qed.

Lemma draw_line_reaches_end_witness :
  exists self' P,
    draw_line 5 (opened 3 2 12) 2 0 0 1 (10, 20, 30) = Some (Ok self')
    /\ paints (10, 20, 30)
         {| width := 3; height := 2; bpp := 32; line_length := 12 |}
         (opened 3 2 12) self' P
    /\ P 2 0 = true /\ P 0 1 = true
    /\ forall qx qy, P qx qy = true ->
         Z.min 2 0 <= qx <= Z.max 2 0 /\ Z.min 0 1 <= qy <= Z.max 0 1.
Proof.
  apply (draw_line_reaches_end (10, 20, 30)
           {| width := 3; height := 2; bpp := 32; line_length := 12 |}
           (opened 3 2 12) 2 0 0 1 5).
  - split; [reflexivity|]. do 3 (split; [cbn; lia|]).
    eexists. split; [reflexivity|]. split; [reflexivity|].
    vm_compute. discriminate.
  - repeat split; reflexivity.
  - vm_compute. reflexivity.
Defined.

Lemma existsb_range_shift (q p lo hi : Z) (g : Z -> bool) :
  existsb (fun a => g a && ((q =? p + a))) (range lo hi)
  = (lo <=? q - p) && (q - p <? hi) && g (q - p).
Proof.
  rewrite <- (existsb_range (q - p) lo hi g).
  induction (range lo hi) as [|a l IH]; [done|]. cbn [existsb].
  rewrite IH. f_equal. rewrite andb_comm. f_equal.
  apply eq_true_iff_eq. rewrite !Z.eqb_eq. lia.
Qed.

(** X7.  On an opened display, and for a colour whose three components
    lie in 0..255, [_draw_char] returns without raising.  For a
    character code from 32 to 126 it sets, inside the cell of [8 * size]
    by [8 * size] pixels at (x, y), exactly the pixels whose block row and
    block column are both even; for any other character, and for a size
    that is not positive, it sets nothing. *)
Theorem draw_char_paints (c : color) (i : FramebufferInfo)
    (self : FramebufferDisplay) (px py ch size : Z) :
  fb_ok self i -> color_ok c ->
  exists self',
    _draw_char self px py ch c size = Ok self'
    /\ paints c i self self'
         (fun qx qy => printable ch && cell px py size qx qy).
Proof.
  intros Hok Hcol. unfold _draw_char. fold (printable ch).
  destruct (printable ch); cbn [andb].
  - destruct (for_each_paints c i (range 0 (8 * size))
                (fun self qy =>
                   for_each (range 0 (8 * size))
                     (fun self qx =>
                        if ((qx / size) mod 2 =? 0) && ((qy / size) mod 2 =? 0)
                        then draw_pixel self (px + qx) (py + qy) c
                        else mret self)
                     self)
                (fun a qx qy =>
                   ((a / size) mod 2 =? 0)
                   && ((0 <=? qx - px) && (qx - px <? 8 * size)
                       && (((qx - px) / size) mod 2 =? 0))
                   && (qy =? py + a))
                self) as (self' & Hrun & Hp); [|done|].
    + intros s a _ Hs.
      destruct (for_each_paints c i (range 0 (8 * size))
                  (fun self qx =>
                     if ((qx / size) mod 2 =? 0) && ((a / size) mod 2 =? 0)
                     then draw_pixel self (px + qx) (py + a) c
                     else mret self)
                  (fun b qx qy =>
                     (((b / size) mod 2 =? 0) && ((a / size) mod 2 =? 0)
                      && (qy =? py + a))
                     && (qx =? px + b))
                  s) as (s' & Hrow & Hprow); [|done|].
      * intros s0 b _ Hs0.
        destruct (((b / size) mod 2 =? 0) && ((a / size) mod 2 =? 0)).
        -- destruct (draw_pixel_paints c i s0 (px + b) (py + a) Hs0 Hcol)
             as (s1 & Hd & Hp1).
           exists s1. split; [done|]. eapply paints_ext; [|exact Hp1].
           intros qx qy _. cbn. apply andb_comm.
        -- exists s0. split; [done|].
           eapply paints_ext; [|by apply paints_refl]. done.
      * exists s'. split; [done|]. eapply paints_ext; [|exact Hprow].
        intros qx qy _. cbn beta.
        rewrite (existsb_range_shift qx px 0 (8 * size)
                   (fun b => ((b / size) mod 2 =? 0)
                             && ((a / size) mod 2 =? 0) && (qy =? py + a))).
        destruct ((a / size) mod 2 =? 0), (qy =? py + a),
          (0 <=? qx - px), (qx - px <? 8 * size),
          ((qx - px) / size mod 2 =? 0); reflexivity.
    + exists self'. split; [done|]. eapply paints_ext; [|exact Hp].
      intros qx qy _. cbn beta.
      rewrite (existsb_range_shift qy py 0 (8 * size)
                 (fun a => ((a / size) mod 2 =? 0)
                           && ((0 <=? qx - px) && (qx - px <? 8 * size)
                               && (((qx - px) / size) mod 2 =? 0)))).
      unfold cell.
      replace (px <=? qx) with (0 <=? qx - px)
        by (apply eq_true_iff_eq; rewrite !Z.leb_le; lia).
      replace (qx <? px + 8 * size) with (qx - px <? 8 * size)
        by (apply eq_true_iff_eq; rewrite !Z.ltb_lt; lia).
      replace (py <=? qy) with (0 <=? qy - py)
        by (apply eq_true_iff_eq; rewrite !Z.leb_le; lia).
      replace (qy <? py + 8 * size) with (qy - py <? 8 * size)
        by (apply eq_true_iff_eq; rewrite !Z.ltb_lt; lia).
      destruct (0 <=? qy - py), (qy - py <? 8 * size),
        ((qy - py) / size mod 2 =? 0), (0 <=? qx - px),
        (qx - px <? 8 * size), ((qx - px) / size mod 2 =? 0); reflexivity.
  - exists self. split; [reflexivity|]. by apply paints_refl.
Qed.

Lemma draw_char_paints_witness :
  exists self',
    _draw_char (opened 3 2 12) 0 0 65 (10, 20, 30) 1 = Ok self'
    /\ paints (10, 20, 30)
         {| width := 3; height := 2; bpp := 32; line_length := 12 |}
         (opened 3 2 12) self'
         (fun qx qy => printable 65 && cell 0 0 1 qx qy).
Proof.
  apply (draw_char_paints (10, 20, 30)
           {| width := 3; height := 2; bpp := 32; line_length := 12 |}
           (opened 3 2 12) 0 0 65 1).
  - split; [reflexivity|]. do 3 (split; [cbn; lia|]).
    eexists. split; [reflexivity|]. split; [reflexivity|].
    vm_compute. discriminate.
  - repeat split; reflexivity.
Defined.

(** The cells of characters that start at or beyond the right edge have
    no pixel on the display. *)
Lemma text_cells_off_display (i : FramebufferInfo) (text : list Z)
    (k px py size qx qy : Z) :
  width i <= px + k * 8 * size -> in_display i qx qy ->
  text_cells k px py text size qx qy = false.
Proof.
  revert k. induction text as [|ch text IH]; intros k Hk Hq; [done|].
  cbn [text_cells].
  assert (Hcell : cell (px + k * 8 * size) py size qx qy = false).
  { unfold cell. destruct Hq as [Hqx _].
    destruct (Z.leb_spec (px + k * 8 * size) qx); [lia|done]. }
  rewrite Hcell, andb_false_r. cbn [orb].
  destruct (decide (0 < size)) as [Hs|Hs].
  - apply IH; [lia|done].
  - clear IH Hk Hcell. revert k.
    induction text as [|ch' text IH]; intros k; [done|]. cbn [text_cells].
    rewrite IH, orb_false_r. unfold cell.
    destruct (Z.leb_spec (px + (k + 1) * 8 * size) qx); [|by rewrite andb_false_r].
    destruct (Z.ltb_spec qx (px + (k + 1) * 8 * size + 8 * size)); [lia|].
    by rewrite andb_false_r.
Qed.

Lemma draw_text_from_paints (c : color) (i : FramebufferInfo)
    (text : list Z) (k : Z) (self : FramebufferDisplay) (px py size : Z) :
  fb_ok self i -> color_ok c ->
  exists self',
    draw_text_from k self px py text c size = Ok self'
    /\ paints c i self self' (text_cells k px py text size).
Proof.
  intros Hok Hcol. revert k self Hok.
  induction text as [|ch text IH]; intros k self Hok.
  - exists self. split; [reflexivity|]. by apply paints_refl.
  - cbn [draw_text_from]. rewrite (info_of_ok self i Hok), bind_Ok.
    destruct (Z.leb_spec (width i) (px + k * 8 * size)) as [Hbreak|Hgo].
    + exists self. split; [reflexivity|].
      eapply paints_ext; [|by apply paints_refl].
      intros qx qy Hq. symmetry.
      by apply (text_cells_off_display i (ch :: text)).
    + destruct (draw_char_paints c i self (px + k * 8 * size) py ch size
                  Hok Hcol) as (s1 & Hch & Hp1).
      destruct (IH (k + 1) s1 (proj1 Hp1)) as (s2 & Hrest & Hp2).
      exists s2. rewrite Hch, bind_Ok. split; [done|].
      exact (paints_trans c i self s1 s2 _ _ Hp1 Hp2).
Qed.

(** X8.  On an opened display, and for a colour whose three components
    lie in 0..255, [draw_text] returns without raising and sets exactly
    the pixels of the display that belong to the checkerboard cell of one
    of its printable characters, the [k]-th cell starting at column
    [x + 8 * size * k]: stopping at the first character that starts beyond
    the right edge loses no pixel. *)
Theorem draw_text_paints (c : color) (i : FramebufferInfo)
    (self : FramebufferDisplay) (px py size : Z) (text : list Z) :
  fb_ok self i -> color_ok c ->
  exists self',
    draw_text self px py text c size = Ok self'
    /\ paints c i self self' (text_cells 0 px py text size).
Proof. intros Hok Hcol. by apply draw_text_from_paints. Qed.

Lemma draw_text_paints_witness :
  exists self',
    draw_text (opened 3 2 12) 0 0 [77; 10; 69] (10, 20, 30) 1 = Ok self'
    /\ paints (10, 20, 30)
         {| width := 3; height := 2; bpp := 32; line_length := 12 |}
         (opened 3 2 12) self' (text_cells 0 0 0 [77; 10; 69] 1).
Proof.
  apply (draw_text_paints (10, 20, 30)
           {| width := 3; height := 2; bpp := 32; line_length := 12 |}
           (opened 3 2 12) 0 0 1 [77; 10; 69]).
  - split; [reflexivity|]. do 3 (split; [cbn; lia|]).
    eexists. split; [reflexivity|]. split; [reflexivity|].
    vm_compute. discriminate.
  - repeat split; reflexivity.
Defined.

(* ================================================================== *)
(** ** Events: the log, the nodes and the order of processing *)
(* ================================================================== *)

Lemma for_each_app {A S : Type} (l1 l2 : list A)
    (body : S -> A -> result S) (s : S) :
  for_each (l1 ++ l2) body s = (s ← for_each l1 body s; for_each l2 body s).
Proof.
  revert s. induction l1 as [|a l1 IH]; intros s; [reflexivity|].
  cbn [app for_each]. destruct (body s a) as [s1|e]; [|reflexivity].
  rewrite !bind_Ok. apply IH.
Qed.

(** [process_event] does not look at the queue. *)
Lemma process_event_set_queue (now : Q) (q : list pyval)
    (self : MelvinVisualizerFB) (ev : pyval) :
  process_event now (set_queue q self) ev
  = (s ← process_event now self ev; mret (set_queue q s)).
Proof.
  destruct ev as [| | | | | |m]; try reflexivity.
  unfold process_event.
  destruct (is_log_type (dict_get m "type" (PStr ""))); [reflexivity|].
  destruct (eq_str (dict_get m "type" (PStr "")) "graph_update").
  - destruct (as_int_key (dict_get m "node_id" (PInt 0))) as [[k|]|e];
      try reflexivity.
    rewrite !bind_Ok. cbn [nodes set_queue].
    destruct (has_key k (nodes self)); [|reflexivity].
    destruct (as_number (dict_get m "activation" (PFloat 0))); reflexivity.
  - destruct (eq_str (dict_get m "type" (PStr "")) "metric"); reflexivity.
Qed.

(** [process_events] is the loop body applied to the queued events, first
    in first out, and leaves the queue empty. *)
Lemma process_events_for_each (now : Q) (q : list pyval)
    (self : MelvinVisualizerFB) :
  process_events now (set_queue q self)
  = for_each q (process_event now) (set_queue [] self).
Proof.
  unfold process_events. cbn [event_queue set_queue].
  revert self. induction q as [|ev q IH]; intros self; [reflexivity|].
  cbn [length drain event_queue set_queue for_each].
  change (set_queue q (set_queue (ev :: q) self)) with (set_queue q self).
  rewrite !process_event_set_queue.
  destruct (process_event now self ev) as [s|e]; [|reflexivity].
  rewrite !bind_Ok. cbn [mret result_ret].
  apply (IH s).
Qed.

Lemma for_each_event_queue (now : Q) (q : list pyval)
    (self self' : MelvinVisualizerFB) :
  for_each q (process_event now) self = Ok self' ->
  event_queue self' = event_queue self.
Proof.
  revert self. induction q as [|ev q IH]; intros self; cbn [for_each].
  - by intros [= <-].
  - pose proof (process_event_set_queue now (event_queue self) self ev) as Hq.
    destruct (process_event now self ev) as [s|e] eqn:Hev; [|done].
    rewrite bind_Ok. intros Hrest. rewrite (IH s Hrest).
    assert (Hself : set_queue (event_queue self) self = self)
      by by destruct self.
    rewrite Hself, Hev, bind_Ok in Hq. by injection Hq as ->.
Qed.

(** X13.  [process_events] applies the queued events in the order they
    were queued: draining a queue [q1 ++ q2] is draining [q1] and then
    [q2], an exception in the first part leaves the second part
    unprocessed, and a drain that completes leaves the queue empty. *)
Theorem process_events_fifo (now : Q) (q1 q2 : list pyval)
    (self : MelvinVisualizerFB) :
  process_events now (set_queue (q1 ++ q2) self)
  = (s ← process_events now (set_queue q1 self);
     process_events now (set_queue q2 s))
  /\ forall self', process_events now (set_queue (q1 ++ q2) self) = Ok self' ->
       event_queue self' = [].
Proof.
  split.
  - rewrite !process_events_for_each, for_each_app.
    destruct (for_each q1 (process_event now) (set_queue [] self))
      as [s|e] eqn:H1; [|reflexivity].
    rewrite !bind_Ok, process_events_for_each.
    apply for_each_event_queue in H1. cbn [event_queue set_queue] in H1.
    f_equal. destruct s; cbn in *; by subst.
  - intros self' H. rewrite process_events_for_each in H.
    by apply for_each_event_queue in H.
Qed.

Lemma set_queue_self (self : MelvinVisualizerFB) :
  set_queue (event_queue self) self = self.
Proof. by destruct self. Qed.

(** Appending to the last 500 entries of [l] gives the last 500 entries
    of [l] with the new entry. *)
Lemma entries_append_window (l : list LogEntry) (e : LogEntry) :
  entries_append (drop (length l - entries_maxlen) l) e
  = drop (length (l ++ [e]) - entries_maxlen) (l ++ [e]).
Proof.
  unfold entries_append, entries_maxlen.
  rewrite <- (drop_app_le l [e]) by lia.
  rewrite drop_drop. f_equal.
  rewrite length_drop, !length_app. cbn. lia.
Qed.

Lemma process_event_log (now : Q) (self : MelvinVisualizerFB)
    (ev : gmap string pyval) (t : string) :
  is_log_record ev t ->
  process_event now self (PDict ev)
  = Ok {| fb := fb self;
          entries := entries_append (entries self) (log_entry now ev t);
          nodes := nodes self; metrics := metrics self;
          event_queue := event_queue self; running := running self;
          camera_theta := camera_theta self |}.
Proof. intros Ht. unfold process_event. by rewrite Ht. Qed.

Lemma for_each_logs (now : Q) (recs : list (gmap string pyval * string))
    (self : MelvinVisualizerFB) (l : list LogEntry) :
  Forall (fun p => is_log_record p.1 p.2) recs ->
  entries self = drop (length l - entries_maxlen) l ->
  exists self',
    for_each ((fun p => PDict p.1) <$> recs) (process_event now) self
    = Ok self'
    /\ entries self'
       = drop (length (l ++ ((fun p => log_entry now p.1 p.2) <$> recs))
               - entries_maxlen)
              (l ++ ((fun p => log_entry now p.1 p.2) <$> recs))
    /\ nodes self' = nodes self /\ metrics self' = metrics self.
Proof.
  intros Hrecs. revert self l.
  induction Hrecs as [|[ev t] recs Hrec _ IH]; intros self l Hl.
  - exists self. cbn. by rewrite app_nil_r.
  - cbn [fmap list_fmap for_each fst snd].
    rewrite (process_event_log now self ev t Hrec), bind_Ok.
    set (s1 := {| fb := fb self;
                  entries := entries_append (entries self) (log_entry now ev t);
                  nodes := nodes self; metrics := metrics self;
                  event_queue := event_queue self; running := running self;
                  camera_theta := camera_theta self |}).
    destruct (IH s1 (l ++ [log_entry now ev t]))
      as (self' & Hrun & He & Hn & Hm).
    { subst s1. cbn [entries]. rewrite Hl. apply entries_append_window. }
    exists self'. split; [exact Hrun|]. rewrite <- app_assoc in He.
    by repeat split.
Qed.

(** X9.  The log is a ring of 500 entries.  Draining a queue of log
    records never raises and leaves in [entries], oldest first, the last
    500 of the old entries followed by one entry per record, in the order
    of the records; the nodes and the metrics are not touched. *)
Theorem process_events_log_ring (now : Q)
    (recs : list (gmap string pyval * string)) (self : MelvinVisualizerFB) :
  Forall (fun p => is_log_record p.1 p.2) recs ->
  (length (entries self) <= entries_maxlen)%nat ->
  exists self',
    process_events now (set_queue ((fun p => PDict p.1) <$> recs) self)
    = Ok self'
    /\ entries self'
       = drop (length (entries self
                       ++ ((fun p => log_entry now p.1 p.2) <$> recs))
               - entries_maxlen)
              (entries self ++ ((fun p => log_entry now p.1 p.2) <$> recs))
    /\ (length (entries self') <= entries_maxlen)%nat
    /\ nodes self' = nodes self /\ metrics self' = metrics self.
Proof.
  intros Hrecs Hlen. rewrite process_events_for_each.
  destruct (for_each_logs now recs (set_queue [] self) (entries self) Hrecs)
    as (self' & Hrun & He & Hn & Hm).
  { cbn [entries set_queue].
    replace (length (entries self) - entries_maxlen)%nat with 0%nat by lia.
    reflexivity. }
  exists self'. split; [done|]. split; [done|].
  split; [|done]. rewrite He, length_drop. lia.
Qed.

Lemma process_events_log_ring_witness :
  exists self',
    process_events 0
      (set_queue ((fun p => PDict p.1)
                  <$> [(<["type" := PStr "thought"]> ∅, "thought")])
                 (scene []))
    = Ok self'
    /\ entries self'
       = drop (length (entries (scene [])
                       ++ ((fun p => log_entry 0 p.1 p.2)
                           <$> [(<["type" := PStr "thought"]> ∅, "thought")]))
               - entries_maxlen)
              (entries (scene [])
               ++ ((fun p => log_entry 0 p.1 p.2)
                   <$> [(<["type" := PStr "thought"]> ∅, "thought")]))
    /\ (length (entries self') <= entries_maxlen)%nat
    /\ nodes self' = nodes (scene []) /\ metrics self' = metrics (scene []).
Proof.
  apply (process_events_log_ring 0
           [(<["type" := PStr "thought"]> ∅, "thought")] (scene [])).
  - apply Forall_cons_2; [vm_compute; reflexivity | apply Forall_nil_2].
  - cbn. lia.
Defined.

Lemma same_place_refl (l : list GraphNode) : Forall2 same_place l l.
Proof. induction l; constructor; [by repeat split|done]. Qed.

Lemma update_item_keeps (k : Z) (f : GraphNode -> GraphNode)
    (items : list (Z * GraphNode)) :
  (forall n, same_place n (f n)) ->
  (update_item k f items).*1 = items.*1
  /\ Forall2 same_place items.*2 (update_item k f items).*2.
Proof.
  intros Hf. induction items as [|[k' n] items [IH1 IH2]]; [by split|].
  cbn [update_item]. destruct (k' =? k); cbn.
  - split; [done|]. constructor; [apply Hf | apply same_place_refl].
  - split; [by rewrite IH1|]. constructor; [by repeat split | done].
Qed.

Lemma process_event_keeps_nodes (now : Q) (self self' : MelvinVisualizerFB)
    (ev : pyval) :
  process_event now self ev = Ok self' ->
  (nodes self').*1 = (nodes self).*1
  /\ Forall2 same_place (values self) (values self').
Proof.
  assert (Hsame : (nodes self).*1 = (nodes self).*1
                  /\ Forall2 same_place (values self) (values self))
    by (split; [done | apply same_place_refl]).
  destruct ev as [| | | | | |m]; try done.
  unfold process_event.
  destruct (is_log_type (dict_get m "type" (PStr ""))).
  { by intros [= <-]. }
  destruct (eq_str (dict_get m "type" (PStr "")) "graph_update").
  - destruct (as_int_key (dict_get m "node_id" (PInt 0))) as [[k|]|e];
      [| by intros [= <-] | done].
    rewrite bind_Ok. destruct (has_key k (nodes self)); [|by intros [= <-]].
    destruct (as_number (dict_get m "activation" (PFloat 0))) as [a|e];
      [|done].
    rewrite bind_Ok. intros [= <-]. unfold values. cbn [nodes].
    apply update_item_keeps. intros n. by repeat split.
  - destruct (eq_str (dict_get m "type" (PStr "")) "metric");
      by intros [= <-].
Qed.

(** X10.  Events never add, remove, reorder or move nodes: after a drain
    of any queue that completes, the dictionary of nodes has the same keys
    in the same order, and every node has the identifier, the position and
    the brightness it had. *)
Theorem process_events_keeps_nodes (now : Q)
    (self self' : MelvinVisualizerFB) :
  process_events now self = Ok self' ->
  (nodes self').*1 = (nodes self).*1
  /\ Forall2 same_place (values self) (values self').
Proof.
  rewrite <- (set_queue_self self) at 1. rewrite process_events_for_each.
  change (nodes self) with (nodes (set_queue [] self)).
  change (values self) with (values (set_queue [] self)).
  generalize (set_queue [] self). clear.
  induction (event_queue self) as [|ev q IH]; intros s; cbn [for_each].
  - intros [= <-]. split; [done | apply same_place_refl].
  - destruct (process_event now s ev) as [s1|e] eqn:Hev; [|done].
    rewrite bind_Ok. intros Hrest.
    destruct (process_event_keeps_nodes now s s1 ev Hev) as [Hk1 Hp1].
    destruct (IH s1 Hrest) as [Hk2 Hp2]. split; [congruence|].
    clear -Hp1 Hp2. revert Hp2. generalize (values self').
    induction Hp1 as [|n n1 l l1 Hn _ IHl]; intros l2 H2;
      inversion H2 as [|? n2 ? l2' Hn2 Hl2]; subst; constructor.
    + destruct Hn as (? & ? & ? & ? & ?), Hn2 as (? & ? & ? & ? & ?).
      repeat split; congruence.
    + by apply IHl.
Qed.

Lemma process_events_keeps_nodes_witness :
  (nodes (scene [set_activation 0.9 pulsing])).*1
  = (nodes (set_queue [PDict update_record] (scene [pulsing]))).*1
  /\ Forall2 same_place
       (values (set_queue [PDict update_record] (scene [pulsing])))
       (values (scene [set_activation 0.9 pulsing])).
Proof.
  apply (process_events_keeps_nodes 0
           (set_queue [PDict update_record] (scene [pulsing]))
           (scene [set_activation 0.9 pulsing])).
  vm_compute. reflexivity.
Defined.

Lemma has_key_lookup (k : Z) (items : list (Z * GraphNode)) (j : nat)
    (n : GraphNode) :
  items !! j = Some (k, n) -> has_key k items = true.
Proof.
  intros Hj. unfold has_key. apply existsb_exists.
  exists (k, n). split; [|apply Z.eqb_refl].
  apply list_elem_of_In. by eapply list_elem_of_lookup_2.
Qed.

Lemma update_item_lookup (k : Z) (f : GraphNode -> GraphNode)
    (items : list (Z * GraphNode)) (j : nat) (n : GraphNode) :
  NoDup items.*1 -> items !! j = Some (k, n) ->
  update_item k f items !! j = Some (k, f n)
  /\ forall j', j' <> j -> update_item k f items !! j' = items !! j'.
Proof.
  revert j. induction items as [|[k' n'] items IH]; intros j Hnd Hj; [done|].
  cbn [fmap list_fmap fst] in Hnd. apply NoDup_cons in Hnd as [Hk' Hnd].
  cbn [update_item]. destruct (Z.eqb_spec k' k) as [->|Hne].
  - destruct j as [|j].
    + injection Hj as <-. split; [done|]. by intros [|j'] Hj'.
    + exfalso. apply Hk'. cbn in Hj.
      apply list_elem_of_fmap. exists (k, n). split; [done|].
      by eapply list_elem_of_lookup_2.
  - destruct j as [|j]; [cbn in Hj; congruence|]. cbn in Hj.
    destruct (IH j Hnd Hj) as [Hhit Hmiss]. split; [done|].
    intros [|j'] Hj'; [done|]. cbn. apply Hmiss. lia.
Qed.

(** X11.  A graph update for a known node, with a numeric activation,
    stores the activation in that node and in no other.  The pulse timer
    of the node is reset to 0.2 when the activation is above 0.8, whatever
    it was, and is kept otherwise; the brightness does not jump, and the
    log and the metrics are not touched. *)
Theorem graph_update_sets_activation (now : Q) (self : MelvinVisualizerFB)
    (ev : gmap string pyval) (k : Z) (a : Q) (j : nat) (n : GraphNode) :
  ev !! "type" = Some (PStr "graph_update") ->
  as_int_key (dict_get ev "node_id" (PInt 0)) = Ok (Some k) ->
  as_number (dict_get ev "activation" (PFloat 0)) = Ok a ->
  NoDup (nodes self).*1 -> nodes self !! j = Some (k, n) ->
  exists self' n',
    process_event now self (PDict ev) = Ok self'
    /\ nodes self' !! j = Some (k, n')
    /\ activation n' = a
    /\ brightness n' = brightness n
    /\ ((0.8 < a)%Q -> pulse_timer n' = 0.2%Q)
    /\ ((a <= 0.8)%Q -> pulse_timer n' = pulse_timer n)
    /\ (forall j', j' <> j -> nodes self' !! j' = nodes self !! j')
    /\ entries self' = entries self /\ metrics self' = metrics self.
Proof.
  intros Ht Hk Ha Hnd Hj.
  assert (Hty : dict_get ev "type" (PStr "") = PStr "graph_update")
    by (unfold dict_get; by rewrite Ht).
  unfold process_event. rewrite Hty. cbn [is_log_type].
  change (bool_decide _) with false. cbv iota.
  change (eq_str (PStr "graph_update") "graph_update") with true. cbv iota.
  rewrite Hk, bind_Ok, (has_key_lookup k _ j n Hj), Ha, bind_Ok.
  destruct (update_item_lookup k (set_activation a) _ j n Hnd Hj)
    as [Hhit Hmiss].
  eexists _, (set_activation a n). split; [reflexivity|]. cbn [nodes].
  split; [done|]. split; [done|]. split; [done|].
  split; [intros H; cbn; by rewrite (proj2 (Qltb_lt _ _) H)|].
  split; [intros H; cbn; by rewrite (proj2 (Qltb_ge _ _) H)|].
  by repeat split.
Qed.

Lemma graph_update_sets_activation_witness :
  exists self' n',
    process_event 0 (scene [pulsing]) (PDict update_record) = Ok self'
    /\ nodes self' !! 0%nat = Some (0, n')
    /\ activation n' = 0.9%Q
    /\ brightness n' = brightness pulsing
    /\ ((0.8 < 0.9)%Q -> pulse_timer n' = 0.2%Q)
    /\ ((0.9 <= 0.8)%Q -> pulse_timer n' = pulse_timer pulsing)
    /\ (forall j', j' <> 0%nat ->
          nodes self' !! j' = nodes (scene [pulsing]) !! j')
    /\ entries self' = entries (scene [pulsing])
    /\ metrics self' = metrics (scene [pulsing]).
Proof.
  apply (graph_update_sets_activation 0 (scene [pulsing]) update_record
           0 0.9 0 pulsing); try (vm_compute; reflexivity).
  cbn. apply NoDup_singleton.
Defined.

(** X12.  A graph update whose node id is not a key of the dictionary
    (an unknown number, a string, null) changes nothing and raises
    nothing, whatever its activation field holds. *)
Theorem graph_update_unknown_node_ignored (now : Q)
    (self : MelvinVisualizerFB) (ev : gmap string pyval) :
  ev !! "type" = Some (PStr "graph_update") ->
  (as_int_key (dict_get ev "node_id" (PInt 0)) = Ok None
   \/ exists k, as_int_key (dict_get ev "node_id" (PInt 0)) = Ok (Some k)
                /\ has_key k (nodes self) = false) ->
  process_event now self (PDict ev) = Ok self.
Proof.
  intros Ht Hk.
  assert (Hty : dict_get ev "type" (PStr "") = PStr "graph_update")
    by (unfold dict_get; by rewrite Ht).
  unfold process_event. rewrite Hty. cbn [is_log_type].
  change (bool_decide _) with false. cbv iota.
  change (eq_str (PStr "graph_update") "graph_update") with true. cbv iota.
  destruct Hk as [->|(k & -> & Hno)]; rewrite bind_Ok; [done|].
  by rewrite Hno.
Qed.

Lemma graph_update_unknown_node_ignored_witness :
  process_event 0 (scene [])
    (PDict (<["activation" := PStr "high"]> update_record))
  = Ok (scene []).
Proof.
  apply (graph_update_unknown_node_ignored 0 (scene [])
           (<["activation" := PStr "high"]> update_record)).
  - vm_compute. reflexivity.
  - right. exists 0. split; vm_compute; reflexivity.
Defined.

(** X14.  When the events queued before it are processed without an
    exception, a queued event that is not a JSON object (a number, a
    string, a list, null) makes the call of [process_events] raise
    [AttributeError] instead of returning, whatever is queued after
    it. *)
Theorem non_object_event_aborts (now : Q) (q1 q2 : list pyval) (ev : pyval)
    (self s1 : MelvinVisualizerFB) :
  (forall m, ev <> PDict m) ->
  process_events now (set_queue q1 self) = Ok s1 ->
  process_events now (set_queue (q1 ++ ev :: q2) self) = Raise AttributeError.
Proof.
  intros Hev H1.
  rewrite (proj1 (process_events_fifo now q1 (ev :: q2) self)), H1, bind_Ok.
  rewrite process_events_for_each. cbn [for_each].
  destruct ev; try reflexivity. by destruct (Hev m).
Qed.

Lemma non_object_event_aborts_witness :
  process_events 0
    (set_queue ([PDict metric_record] ++ PInt 5 :: [PDict update_record])
               (scene [pulsing]))
  = Raise AttributeError.
Proof.
  refine (non_object_event_aborts 0 [PDict metric_record]
            [PDict update_record] (PInt 5) (scene [pulsing]) _ _ _).
  - intros m. discriminate.
  - vm_compute. reflexivity.
Defined.

Lemma demo_log_accepted (now : Q) (self : MelvinVisualizerFB)
    (ix : nat) (text : pyval) (t : Q) :
  exists self',
    process_event now self
      (PDict (<["type" := choice types ix]>
              (<["text" := text]>
              (<["context" := PStr "main"]>
              (<["timestamp" := PFloat t]> ∅)))))
    = Ok self'
    /\ nodes self' = nodes self.
Proof.
  do 5 (destruct ix as [|ix];
        [eexists; split; [vm_compute; reflexivity | reflexivity]|]).
  eexists. split; [vm_compute; reflexivity | reflexivity].
Qed.

Lemma demo_update_accepted (now : Q) (self : MelvinVisualizerFB)
    (k : Z) (a : Q) :
  exists self',
    process_event now self
      (PDict (<["type" := PStr "graph_update"]>
              (<["node_id" := PInt k]>
              (<["activation" := PFloat a]> ∅))))
    = Ok self'
    /\ (nodes self').*1 = (nodes self).*1.
Proof.
  set (ev := <["type" := PStr "graph_update"]>
             (<["node_id" := PInt k]> (<["activation" := PFloat a]> ∅))).
  assert (Hty : dict_get ev "type" (PStr "") = PStr "graph_update")
    by (vm_compute; reflexivity).
  assert (Hid : dict_get ev "node_id" (PInt 0) = PInt k)
    by (vm_compute; reflexivity).
  assert (Hact : dict_get ev "activation" (PFloat 0) = PFloat a)
    by (vm_compute; reflexivity).
  destruct (process_event now self (PDict ev)) as [s|e] eqn:Hev.
  - exists s. split; [done|]. by eapply process_event_keeps_nodes.
  - exfalso. revert Hev. unfold process_event.
    rewrite Hty, Hid, Hact. cbn [is_log_type].
    change (bool_decide _) with false. cbv iota.
    change (eq_str (PStr "graph_update") "graph_update") with true. cbv iota.
    cbn [as_int_key as_number]. rewrite bind_Ok.
    by destruct (has_key k (nodes self)).
Qed.

(** X15.  The synthetic generator and the consumer agree: whatever the
    random draws, the events that one iteration of [_run_demo_mode] puts
    on the queue are applied by [process_events] without an exception,
    and leave the keys of the node dictionary as they were. *)
Theorem demo_events_are_accepted (now : Q) (d : demo_draw)
    (self : MelvinVisualizerFB) :
  exists self',
    process_events now (set_queue (demo_events d) self) = Ok self'
    /\ (nodes self').*1 = (nodes self).*1.
Proof.
  rewrite process_events_for_each. unfold demo_events.
  rewrite for_each_app. cbn [for_each].
  destruct (demo_log_accepted now (set_queue [] self) (type_ix d)
              (choice messages (text_ix d)) (time_now d)) as (s1 & -> & Hn1).
  rewrite bind_Ok.
  destruct (demo_update_accepted now s1 (node_ix d) (u_activation d))
    as (s2 & -> & Hn2).
  rewrite !bind_Ok.
  destruct (Qltb (u_metric d) 0.3); cbn [for_each].
  - destruct (process_event now s2 _) as [s3|e] eqn:Hev.
    + exists s3. rewrite bind_Ok. split; [done|].
      apply process_event_keeps_nodes in Hev as [-> _].
      by rewrite Hn2, Hn1.
    + exfalso. revert Hev. unfold process_event.
      match goal with
      | |- context [dict_get ?m "type" (PStr "")] =>
          assert (Hty : dict_get m "type" (PStr "") = PStr "metric")
            by (vm_compute; reflexivity);
          rewrite Hty
      end.
      done.
  - exists s2. split; [done|]. by rewrite Hn2, Hn1.
Qed.

(* ================================================================== *)
(** ** Ticks: what does not depend on the elapsed time *)
(* ================================================================== *)

Lemma update_nodes_same_look (s1 s2 : MelvinVisualizerFB) (d1 d2 : Q) :
  Forall2 same_look (values s1) (values s2) ->
  Forall2 same_look (values (update_nodes s1 d1)) (values (update_nodes s2 d2)).
Proof.
  rewrite !values_update_nodes.
  induction 1 as [|n n' l l' Hn _ IH]; cbn; constructor; [|exact IH].
  destruct Hn as (Hi & Hx & Hy & Hz & Ha & Hb).
  unfold same_look. cbn. by rewrite Hi, Hx, Hy, Hz, Ha, Hb.
Qed.

Lemma same_look_refl (l : list GraphNode) : Forall2 same_look l l.
Proof. induction l; constructor; [by repeat split|done]. Qed.

Lemma ticks_same_look (dts dts' : list Q) (s1 s2 : MelvinVisualizerFB) :
  length dts = length dts' ->
  Forall2 same_look (values s1) (values s2) ->
  Forall2 same_look (values (foldl update_nodes s1 dts))
                    (values (foldl update_nodes s2 dts')).
Proof.
  revert dts' s1 s2. induction dts as [|d dts IH];
    intros [|d' dts'] s1 s2 Hlen Hs; try done.
  cbn [foldl]. apply IH; [by injection Hlen|].
  by apply update_nodes_same_look.
Qed.

(** X16.  The animation of the nodes counts ticks, not time: after two
    sequences of ticks of the same length, whatever the elapsed times,
    every node has the same brightness (and the same identifier, position
    and activation); only the pulse timers can differ. *)
Theorem brightness_depends_on_tick_count (dts dts' : list Q)
    (self : MelvinVisualizerFB) :
  length dts = length dts' ->
  Forall2 same_look (values (foldl update_nodes self dts))
                    (values (foldl update_nodes self dts')).
Proof. intros Hlen. apply ticks_same_look; [done | apply same_look_refl]. Qed.

Lemma brightness_depends_on_tick_count_witness :
  Forall2 same_look
    (values (foldl update_nodes (scene [pulsing; far_node]) [1#30; 1#30]))
    (values (foldl update_nodes (scene [pulsing; far_node]) [1#2; 3#1])).
Proof.
  apply (brightness_depends_on_tick_count [1#30; 1#30] [1#2; 3#1]
           (scene [pulsing; far_node])).
  reflexivity.
Defined.

(* ================================================================== *)
(** ** The graph panel *)
(* ================================================================== *)

Lemma drawn_by_increasing_z_witness :
  StronglySorted z_le
    [ (near_node, DrawCircle 600 175 3 (0, 255, 127) true);
      (far_node, DrawCircle 600 175 2 (0, 0, 0) true) ].*1
  /\ [ (near_node, DrawCircle 600 175 3 (0, 255, 127) true);
       (far_node, DrawCircle 600 175 2 (0, 0, 0) true) ].*1
     ⊆ values (scene [far_node; near_node]).
Proof.
  apply (drawn_by_increasing_z 1 0 (scene [far_node; near_node])
           410 60 380 230).
  vm_compute. reflexivity.
Defined.

(** Inserting a node puts it in front of the nodes of its own key and
    does not disturb the nodes of any key. *)
Lemma with_z_insert_by_z (q : Q) (n : GraphNode) (l : list GraphNode) :
  with_z q (insert_by_z n l) = with_z q (n :: l).
Proof.
  unfold with_z. induction l as [|m l IH]; [reflexivity|].
  cbn [insert_by_z]. destruct (Qltb (z m) (z n)) eqn:E; [|reflexivity].
  apply Qltb_lt in E.
  rewrite !filter_cons in *.
  destruct (decide (Qeq_bool (z m) q = true)) as [Hm|Hm];
    destruct (decide (Qeq_bool (z n) q = true)) as [Hn|Hn];
    rewrite IH; try reflexivity.
  apply Qeq_bool_eq in Hm, Hn. rewrite Hm, Hn in E.
  by apply Qlt_irrefl in E.
Qed.

(** X18.  The order of [sorted(..., key=lambda n: n.z)], for any input:
    the result holds the same nodes, by non-decreasing [z], and it is
    stable: for every key value, the nodes of that key come in the order
    they had in the input, so nodes of equal [z] are drawn in the order of
    the dictionary. *)
Theorem sorted_by_z_stable (l : list GraphNode) :
  sorted_by_z l ≡ₚ l
  /\ StronglySorted z_le (sorted_by_z l)
  /\ forall q, with_z q (sorted_by_z l) = with_z q l.
Proof.
  split; [apply sorted_by_z_perm|]. split; [apply sorted_by_z_sorted|].
  intros q. induction l as [|n l IH]; [reflexivity|].
  unfold sorted_by_z in *. cbn [foldr].
  rewrite with_z_insert_by_z. unfold with_z in *.
  rewrite !filter_cons, IH. reflexivity.
Qed.

Lemma int_of_float_bounds (q : Q) (n : Z) :
  (0 <= q)%Q -> (q <= inject_Z n)%Q -> 0 <= int_of_float q <= n.
Proof.
  destruct q as [num den]. unfold Qle, int_of_float, inject_Z. cbn.
  intros H0 Hn. rewrite Z.mul_1_r in *.
  rewrite Z.quot_div_nonneg by lia. split.
  - apply Z.div_pos; lia.
  - apply Z.div_le_upper_bound; lia.
Qed.

Lemma draw_node_circle (cos_t sin_t : Q) (px py w h : Z) (n : GraphNode)
    (d : draw_cmd) :
  in_unit (brightness n) ->
  draw_node cos_t sin_t px py w h n = Ok (Some d) ->
  circle_in_panel px py w h d.
Proof.
  intros [Hb0 Hb1]. unfold draw_node.
  destruct (project_node cos_t sin_t n w h) as [[[sx sy] s]|e]; [|done].
  rewrite bind_Ok.
  destruct (Qltb s 0); [done|]. cbn [orb].
  destruct (Z.ltb_spec (sx + px) px); [done|].
  destruct (Z.ltb_spec (sy + py) py); [done|].
  destruct (Z.leb_spec (px + w) (sx + px)); [done|].
  destruct (Z.leb_spec (py + h) (sy + py)); [done|]. cbn [orb].
  intros [= <-]. eexists _, _, _, _. split; [reflexivity|].
  split; [lia|]. split; [lia|]. split; [lia|].
  assert (Hg : 0 <= int_of_float (brightness n * 255) <= 255)
    by (apply int_of_float_bounds; unfold inject_Z; lra).
  assert (Hbl : 0 <= int_of_float
                       (float_of_int (int_of_float (brightness n * 255)) * 0.5)
                <= 255).
  { apply int_of_float_bounds; unfold float_of_int.
    - assert (0 <= inject_Z (int_of_float (brightness n * 255)))%Q
        by (rewrite <- (Zle_Qle 0); lia). lra.
    - assert (inject_Z (int_of_float (brightness n * 255)) <= inject_Z 255)%Q
        by (rewrite <- Zle_Qle; lia).
      assert (0 <= inject_Z (int_of_float (brightness n * 255)))%Q
        by (rewrite <- (Zle_Qle 0); lia).
      unfold inject_Z in *. lra. }
  unfold color_ok, is_byte. repeat split; apply andb_true_iff;
    rewrite !Z.leb_le; lia.
Qed.

Lemma draw_nodes_circles (cos_t sin_t : Q) (px py w h : Z)
    (ns : list GraphNode) (ds : list (GraphNode * draw_cmd)) :
  Forall (fun n => in_unit (brightness n)) ns ->
  draw_nodes cos_t sin_t px py w h ns = Ok ds ->
  Forall (fun d => circle_in_panel px py w h d.2) ds.
Proof.
  intros Hns. revert ds. induction Hns as [|n ns Hn _ IH]; intros ds; cbn.
  - intros [= <-]. constructor.
  - destruct (draw_node cos_t sin_t px py w h n) as [d|e] eqn:Hd; [|done].
    rewrite bind_Ok.
    destruct (draw_nodes cos_t sin_t px py w h ns) as [rest|e]; [|done].
    rewrite bind_Ok. intros [= <-]. specialize (IH rest eq_refl).
    destruct d as [c|]; [|done]. constructor; [|done].
    by apply (draw_node_circle cos_t sin_t px py w h n).
Qed.

(** X19.  While every brightness lies in [0,1], each circle that the
    graph panel draws is filled, has its centre inside the panel, a radius
    of at least 2 and a colour whose three components fit a byte, so that
    plotting it cannot fail on the colour. *)
Theorem drawn_circles_in_panel (cos_t sin_t : Q) (self : MelvinVisualizerFB)
    (px py w h : Z) (ds : list (GraphNode * draw_cmd)) :
  Forall (fun n => in_unit (brightness n)) (values self) ->
  drawn cos_t sin_t self px py w h = Ok ds ->
  Forall (fun d => circle_in_panel px py w h d.2) ds.
Proof.
  intros Hns. apply draw_nodes_circles.
  by rewrite sorted_by_z_perm.
Qed.

Lemma drawn_circles_in_panel_witness :
  Forall (fun d => circle_in_panel 410 60 380 230 d.2)
    [ (near_node, DrawCircle 600 175 3 (0, 255, 127) true);
      (far_node, DrawCircle 600 175 2 (0, 0, 0) true) ].
Proof.
  apply (drawn_circles_in_panel 1 0 (scene [far_node; near_node])
           410 60 380 230).
  - repeat (apply Forall_cons_2; [split; vm_compute; discriminate|]).
    apply Forall_nil_2.
  - vm_compute. reflexivity.
Defined.

Lemma z_rot_bounded (cos_t sin_t : Q) (n : GraphNode) :
  in_pm1 cos_t -> in_pm1 sin_t -> in_pm1 (x n) -> in_pm1 (z n) ->
  (-2 <= z_rot cos_t sin_t n <= 2)%Q.
Proof.
  unfold in_pm1, z_rot. intros Hc Hs Hx Hz.
  assert (-1 <= x n * sin_t <= 1)%Q by (split; nra).
  assert (-1 <= z n * cos_t <= 1)%Q by (split; nra).
  lra.
Qed.

Lemma x_rot_bounded (cos_t sin_t : Q) (n : GraphNode) :
  in_pm1 cos_t -> in_pm1 sin_t -> in_pm1 (x n) -> in_pm1 (z n) ->
  (-2 <= x_rot cos_t sin_t n <= 2)%Q.
Proof.
  unfold in_pm1, x_rot. intros Hc Hs Hx Hz.
  assert (-1 <= x n * cos_t <= 1)%Q by (split; nra).
  assert (-1 <= z n * sin_t <= 1)%Q by (split; nra).
  lra.
Qed.

(** [int] truncates toward zero, so it stays between integer bounds. *)
Lemma int_of_float_between (q : Q) (a b : Z) :
  (inject_Z a <= q)%Q -> (q <= inject_Z b)%Q -> a <= int_of_float q <= b.
Proof.
  destruct q as [num den]. unfold Qle, int_of_float, inject_Z. cbn.
  rewrite !Z.mul_1_r. intros Ha Hb. split.
  - rewrite <- (Z.quot_mul a (Z.pos den)) by lia.
    apply Z.quot_le_mono; lia.
  - rewrite <- (Z.quot_mul b (Z.pos den)) by lia.
    apply Z.quot_le_mono; lia.
Qed.

(** X20.  For a camera direction whose cosine and sine are at most 1 in
    magnitude, a node whose coordinates are at most 1 in magnitude and a
    panel whose width and height fit the 32-bit fields of the device
    geometry, [project_node] does not divide by zero: it returns, with a
    scale between 1/2 and 3, so that the node is in front of the camera,
    and with a screen position within one panel width and one panel height
    of the panel. *)
Theorem project_node_total_near_origin (cos_t sin_t : Q) (n : GraphNode)
    (w h : Z) :
  in_pm1 cos_t -> in_pm1 sin_t ->
  in_pm1 (x n) -> in_pm1 (y n) -> in_pm1 (z n) ->
  0 <= w < 2 ^ 32 -> 0 <= h < 2 ^ 32 ->
  exists sx sy s,
    project_node cos_t sin_t n w h = Ok (sx, sy, s)
    /\ (1 # 2 <= s <= 3)%Q
    /\ - w <= sx <= 2 * w
    /\ - h <= sy <= 2 * h.
Proof.
  intros Hc Hs Hx Hy Hz Hw Hh.
  pose proof (z_rot_bounded cos_t sin_t n Hc Hs Hx Hz) as Hzr.
  pose proof (x_rot_bounded cos_t sin_t n Hc Hs Hx Hz) as Hxr.
  unfold project_node, float_div, distance in *.
  destruct (Qeq_bool (3 + z_rot cos_t sin_t n) 0) eqn:E;
    [apply Qeq_bool_eq in E; lra|].
  rewrite bind_Ok.
  assert (Hsc : (1 # 2 <= 3 / (3 + z_rot cos_t sin_t n) <= 3)%Q).
  { split; [apply Qle_shift_div_l|apply Qle_shift_div_r]; lra. }
  revert Hsc. generalize (3 / (3 + z_rot cos_t sin_t n))%Q. intros s Hsc.
  eexists _, _, _. split; [reflexivity|]. split; [exact Hsc|].
  unfold in_pm1, float_of_int in *.
  assert (Hwq : (0 <= inject_Z w)%Q) by (unfold Qle, inject_Z; cbn; lia).
  assert (Hhq : (0 <= inject_Z h)%Q) by (unfold Qle, inject_Z; cbn; lia).
  assert (Hxs : (-6 <= x_rot cos_t sin_t n * s <= 6)%Q) by (split; nra).
  assert (Hys : (-3 <= y n * s <= 3)%Q) by (split; nra).
  split; apply int_of_float_between; unfold Qdiv;
    change (/ 2)%Q with (1 # 2)%Q; change (/ 4)%Q with (1 # 4)%Q;
    change (/ 3)%Q with (1 # 3)%Q.
  - rewrite inject_Z_opp.
    assert (-6 * inject_Z w <= x_rot cos_t sin_t n * s * inject_Z w)%Q by nra.
    lra.
  - rewrite inject_Z_mult.
    assert (x_rot cos_t sin_t n * s * inject_Z w <= 6 * inject_Z w)%Q by nra.
    change (inject_Z 2) with 2%Q. lra.
  - rewrite inject_Z_opp.
    assert (y n * s * inject_Z h <= 3 * inject_Z h)%Q by nra.
    lra.
  - rewrite inject_Z_mult.
    assert (-3 * inject_Z h <= y n * s * inject_Z h)%Q by nra.
    change (inject_Z 2) with 2%Q. lra.
Qed.

Lemma project_node_total_near_origin_witness :
  exists sx sy s,
    project_node (3 # 5) (4 # 5) unit_x_node 380 230 = Ok (sx, sy, s)
    /\ (1 # 2 <= s <= 3)%Q
    /\ - 380 <= sx <= 2 * 380
    /\ - 230 <= sy <= 2 * 230.
Proof.
  apply (project_node_total_near_origin (3 # 5) (4 # 5) unit_x_node 380 230);
    first [lia | split; vm_compute; discriminate].
Defined.


Lemma clear_fills_unpadded_witness :
  exists fb',
    clear (opened 2 2 8) (10, 20, 30) = Ok fb'
    /\ forall px py, 0 <= px < 2 -> 0 <= py < 2 ->
         pixel_at fb' px py = Some [30; 20; 10; 255].
Proof.
  apply (clear_fills_unpadded (Some 3)
           (replicate (Z.to_nat (8 * 2)) 0) 0
           {| width := 2; height := 2; bpp := 32; line_length := 8 |}
           10 20 30); reflexivity.
Defined.

(* ================================================================== *)
(** ** The ingestion worker on a live connection *)
(* ================================================================== *)

Lemma puts_of_app (l1 l2 : list action) :
  puts_of (l1 ++ l2) = puts_of l1 ++ puts_of l2.
Proof. apply omap_app. Qed.

Lemma puts_of_put_lines (lines : list line_result) :
  puts_of (put_lines lines) = omap event_of (before_error lines).
Proof.
  unfold puts_of.
  induction lines as [|[ev| |] lines IH]; cbn;
    first [done | exact IH | (f_equal; exact IH)].
Qed.

Lemma put_lines_sleeps_one (lines : list line_result) :
  Forall sleeps_one (put_lines lines).
Proof.
  induction lines as [|[ev| |] lines IH]; cbn [put_lines].
  - apply Forall_nil_2.
  - apply Forall_cons_2; [by intros d|done].
  - done.
  - apply Forall_cons_2; [|apply Forall_nil_2].
    intros d Hd. injection Hd as <-. reflexivity.
Qed.

Lemma read_loop_trace (env : worker_env) (fuel k : nat) :
  count is_demo_mode (read_loop env fuel k).1 = 0%nat
  /\ count is_connect (read_loop env fuel k).1 = 0%nat
  /\ Forall sleeps_one (read_loop env fuel k).1
  /\ puts_of (read_loop env fuel k).1
     = omap event_of
         (flat_map (fun j => before_error (lines_of (recv_at env j)))
            (seq k (count is_recv (read_loop env fuel k).1))).
Proof.
  revert k. induction fuel as [|fuel IH]; intros k; cbn [read_loop].
  - repeat split; constructor.
  - destruct (running_at env k).
    2:{ repeat split; try reflexivity.
        apply Forall_cons_2; [by intros d|apply Forall_nil_2]. }
    specialize (IH (S k)).
    destruct (recv_at env k) as [lines| |] eqn:Hrecv.
    + destruct (read_loop env fuel (S k)) as [acts fin].
      cbn [fst snd] in *. destruct IH as (Hd & Hc & Hs & Hp).
      rewrite !count_cons, !count_app.
      rewrite !(count_demo_actions _ (put_lines lines))
        by (apply put_lines_demo_actions || by intros []).
      cbn [is_demo_mode is_connect is_recv Nat.add seq flat_map].
      split; [done|]. split; [done|]. split.
      * apply Forall_cons_2; [by intros d|].
        apply Forall_app_2; [apply put_lines_sleeps_one|done].
      * unfold puts_of at 1. cbn [omap list_omap]. fold (puts_of (put_lines lines ++ acts)).
        rewrite puts_of_app, puts_of_put_lines, Hp, Hrecv.
        cbn [lines_of]. by rewrite omap_app.
    + cbn [fst]. rewrite !count_cons. cbn. rewrite Hrecv.
      repeat split; try done.
      repeat (apply Forall_cons_2; [by intros d|]). apply Forall_nil_2.
    + destruct (read_loop env fuel (S k)) as [acts fin].
      cbn [fst snd] in *. destruct IH as (Hd & Hc & Hs & Hp).
      rewrite !count_cons.
      cbn [is_demo_mode is_connect is_recv Nat.add seq flat_map].
      split; [done|]. split; [done|]. split.
      * apply Forall_cons_2; [by intros d|].
        apply Forall_cons_2; [|done]. intros d [= <-]. reflexivity.
      * unfold puts_of at 1. cbn [omap list_omap]. fold (puts_of acts).
        by rewrite Hp, Hrecv.
Qed.

(** X22.  Once connected, the worker stays on that connection whatever
    the reads do: for any sequence of deliveries and failed reads it never
    enters the synthetic generator and never connects a second time, and
    every pause it makes lasts one second. *)
Theorem connected_worker_stays_connected (env : worker_env) (fuel : nat) :
  socket_ok env = true -> connect_ok env = true ->
  count is_demo_mode (connect_to_socket env fuel).1 = 0%nat
  /\ count is_connect (connect_to_socket env fuel).1 = 1%nat
  /\ Forall sleeps_one (connect_to_socket env fuel).1.
Proof.
  intros Hs Hc. unfold connect_to_socket. rewrite Hs, Hc.
  destruct (read_loop_trace env fuel 0) as (Hd & Hcn & Hsl & _).
  destruct (read_loop env fuel 0) as [acts fin]. cbn [fst] in *.
  rewrite !count_cons, Hd, Hcn. cbn [is_demo_mode is_connect].
  repeat split; try done.
  repeat (apply Forall_cons_2; [by intros d|]). done.
Qed.

Lemma connected_worker_stays_connected_witness :
  count is_demo_mode (connect_to_socket flaky_feed 5).1 = 0%nat
  /\ count is_connect (connect_to_socket flaky_feed 5).1 = 1%nat
  /\ Forall sleeps_one (connect_to_socket flaky_feed 5).1.
Proof.
  apply (connected_worker_stays_connected flaky_feed 5); reflexivity.
Defined.

(** X23.  Once connected, the worker puts on the queue exactly the lines
    that decode and that come, within their read, before the first line on
    which [json.loads] raises another exception than [JSONDecodeError], in
    the order of the reads and of the lines within a read: a line rejected
    with [JSONDecodeError] is dropped alone, a line that raises another
    exception drops the rest of its read with it, and a failed read puts
    nothing. *)
Theorem connected_worker_puts_decoded_lines (env : worker_env) (fuel : nat) :
  socket_ok env = true -> connect_ok env = true ->
  puts_of (connect_to_socket env fuel).1
  = omap event_of
      (flat_map (fun j => before_error (lines_of (recv_at env j)))
         (seq 0 (count is_recv (connect_to_socket env fuel).1))).
Proof.
  intros Hs Hc. unfold connect_to_socket. rewrite Hs, Hc.
  destruct (read_loop_trace env fuel 0) as (_ & _ & _ & Hp).
  destruct (read_loop env fuel 0) as [acts fin]. cbn [fst] in *.
  rewrite !count_cons. cbn [is_recv Nat.add]. exact Hp.
Qed.

Lemma connected_worker_puts_decoded_lines_witness :
  puts_of (connect_to_socket crashing_feed 5).1
  = omap event_of
      (flat_map (fun j => before_error (lines_of (recv_at crashing_feed j)))
         (seq 0 (count is_recv (connect_to_socket crashing_feed 5).1))).
Proof.
  apply (connected_worker_puts_decoded_lines crashing_feed 5); reflexivity.
Defined.

Lemma read_loop_stops (env : worker_env) (k j fuel fuel' : nat) :
  running_at env (j + k) = false -> (k < fuel)%nat -> (k < fuel')%nat ->
  read_loop env fuel j = read_loop env fuel' j
  /\ (read_loop env fuel j).2 = true.
Proof.
  revert j fuel fuel'. induction k as [|k IH]; intros j fuel fuel' Hstop Hf Hf'.
  - rewrite Nat.add_0_r in Hstop.
    destruct fuel as [|fuel]; [lia|]. destruct fuel' as [|fuel']; [lia|].
    cbn [read_loop]. by rewrite Hstop.
  - destruct fuel as [|fuel]; [lia|]. destruct fuel' as [|fuel']; [lia|].
    cbn [read_loop]. destruct (running_at env j); [|done].
    destruct (IH (S j) fuel fuel') as [Heq Hfin];
      [by replace (S j + k)%nat with (j + S k)%nat by lia | lia | lia |].
    destruct (recv_at env j); [|done|]; rewrite <- Heq;
      by destruct (read_loop env fuel (S j)).
Qed.

Lemma demo_loop_stops (env : worker_env) (k j fuel fuel' : nat) :
  running_at env (j + k) = false -> (k < fuel)%nat -> (k < fuel')%nat ->
  demo_loop env fuel j = demo_loop env fuel' j
  /\ (demo_loop env fuel j).2 = true.
Proof.
  revert j fuel fuel'. induction k as [|k IH]; intros j fuel fuel' Hstop Hf Hf'.
  - rewrite Nat.add_0_r in Hstop.
    destruct fuel as [|fuel]; [lia|]. destruct fuel' as [|fuel']; [lia|].
    cbn [demo_loop]. by rewrite Hstop.
  - destruct fuel as [|fuel]; [lia|]. destruct fuel' as [|fuel']; [lia|].
    cbn [demo_loop]. destruct (running_at env j); [|done].
    destruct (IH (S j) fuel fuel') as [Heq Hfin];
      [by replace (S j + k)%nat with (j + S k)%nat by lia | lia | lia |].
    rewrite <- Heq. by destruct (demo_loop env fuel (S j)).
Qed.

(** X24.  The worker obeys the stop flag: in either mode, if some loop
    test finds [self.running] false, the worker has returned by then,
    and what it did does not depend on how much longer it is given. *)
Theorem worker_returns_when_stopped (env : worker_env) (k fuel : nat) :
  running_at env k = false -> (k < fuel)%nat ->
  connect_to_socket env fuel = connect_to_socket env (S k)
  /\ (connect_to_socket env fuel).2 = true.
Proof.
  intros Hstop Hf. unfold connect_to_socket, _run_demo_mode.
  destruct (read_loop_stops env k 0 fuel (S k) Hstop Hf ltac:(lia))
    as [Hr1 Hr2].
  destruct (demo_loop_stops env k 0 fuel (S k) Hstop Hf ltac:(lia))
    as [Hd1 Hd2].
  rewrite <- Hr1, <- Hd1.
  destruct (socket_ok env), (connect_ok env);
    destruct (read_loop env fuel 0), (demo_loop env fuel 0); done.
Qed.

Lemma worker_returns_when_stopped_witness :
  connect_to_socket flaky_feed 7 = connect_to_socket flaky_feed (S 2)
  /\ (connect_to_socket flaky_feed 7).2 = true.
Proof.
  apply (worker_returns_when_stopped flaky_feed 2 7); [reflexivity|lia].
Defined.

(* ================================================================== *)
(** ** The main loop: what happens to the device *)
(* ================================================================== *)

Lemma main_loop_failure (n : nat) (e : exn) (rest : list tick)
    (frame_count : nat) :
  is_Exception e = true ->
  exists out,
    main_loop (replicate n Completed ++ Failed e :: rest) frame_count
    = (Uncaught e, (frame_count + n)%nat, out).
Proof.
  intros He. revert frame_count.
  induction n as [|n IH]; intros c; cbn [replicate app].
  - exists []. cbn. by rewrite He, Nat.add_0_r.
  - cbn [main_loop]. destruct (IH (S c)) as [out ->].
    eexists. by replace (S c + n)%nat with (c + S n)%nat by lia.
Qed.

(** X25.  An exception in the body of the loop does not skip the
    release of the device: after [n] frames it leaves [run] uncaught, so
    that the program ends with exit status 1, but the [finally] clause has
    closed the descriptor by then. *)
Theorem loop_exception_closes_device
    (env : device_env) (self : MelvinVisualizerFB) (fds fds1 : gset Z)
    (fb1 : FramebufferDisplay) (out : list line) (fd : Z) (e : exn)
    (n : nat) (rest : list tick) :
  open env (fb self) fds = Ok (fb1, fds1, out, true) ->
  fb_fd fb1 = Some fd -> fd <> 0 -> is_Exception e = true ->
  ending_of (run env self fds (replicate n Completed ++ Failed e :: rest))
  = Uncaught e
  /\ exit_status
       (ending_of (run env self fds
                     (replicate n Completed ++ Failed e :: rest))) = Some 1
  /\ frames (run env self fds (replicate n Completed ++ Failed e :: rest)) = n
  /\ fd ∉ fds_after (run env self fds
                       (replicate n Completed ++ Failed e :: rest)).
Proof.
  intros Hopen Hfd Hfd0 He.
  destruct (main_loop_failure n e rest 0 He) as [out' Hloop].
  destruct (open_true_inv _ _ _ _ _ _ Hopen) as (fd' & bytes & i & -> & Hin).
  cbn in Hfd. injection Hfd as ->.
  unfold run. rewrite Hopen, Hloop, close_live. cbn zeta.
  destruct (Z.eqb_spec fd 0); [done|]. rewrite decide_True by done.
  cbn. repeat split; try done. apply not_in_remove.
Qed.

Lemma loop_exception_closes_device_witness :
  ending_of (run (device 1 2 8) (scene []) ∅
               (replicate 2 Completed ++ Failed AttributeError :: []))
  = Uncaught AttributeError
  /\ exit_status
       (ending_of (run (device 1 2 8) (scene []) ∅
                     (replicate 2 Completed ++ Failed AttributeError :: [])))
     = Some 1
  /\ frames (run (device 1 2 8) (scene []) ∅
               (replicate 2 Completed ++ Failed AttributeError :: []))
     = 2%nat
  /\ 3 ∉ fds_after (run (device 1 2 8) (scene []) ∅
                      (replicate 2 Completed ++ Failed AttributeError :: [])).
Proof.
  apply (loop_exception_closes_device (device 1 2 8) (scene []) ∅
           ({[3]} ∪ ∅) (opened 1 2 8) [FbOpened 1 2 32] 3 AttributeError 2 []);
    try reflexivity.
  discriminate.
Defined.

(** X26.  When the device file opens but a geometry query or the mapping
    fails, [open()] returns [False] with the descriptor still open, and
    [run] returns without closing it: the descriptor is left open, no
    frame is rendered and no worker is started. *)
Theorem failed_open_leaves_descriptor
    (env : device_env) (self : MelvinVisualizerFB) (fds : gset Z)
    (ticks : list tick) (fd : Z) (e : exn) :
  env_open env = Ok fd -> startup_failure env e -> is_Exception e = true ->
  ending_of (run env self fds ticks) = Returned
  /\ fd ∈ fds_after (run env self fds ticks)
  /\ fb_fd (fb_after (run env self fds ticks)) = Some fd
  /\ frames (run env self fds ticks) = 0%nat
  /\ workers (run env self fds ticks) = 0%nat.
Proof.
  intros Ho Hf He. unfold run, open. rewrite Ho.
  destruct Hf as [H1|fd' H1 H2|fd' vi H1 H2 H3|fd' vi fi H1 H2 H3 H4];
    [congruence| | |].
  - rewrite H2, He. cbn. repeat split; try done. set_solver.
  - rewrite H2, H3, He. cbn. repeat split; try done. set_solver.
  - rewrite H2, H3. cbn [line_length height]. rewrite H4, He. cbn.
    repeat split; try done. set_solver.
Qed.

Lemma failed_open_leaves_descriptor_witness :
  ending_of (run mute_device (scene []) ∅ [Completed]) = Returned
  /\ 3 ∈ fds_after (run mute_device (scene []) ∅ [Completed])
  /\ fb_fd (fb_after (run mute_device (scene []) ∅ [Completed])) = Some 3
  /\ frames (run mute_device (scene []) ∅ [Completed]) = 0%nat
  /\ workers (run mute_device (scene []) ∅ [Completed]) = 0%nat.
Proof.
  apply (failed_open_leaves_descriptor mute_device (scene []) ∅ [Completed]
           3 OSError).
  - reflexivity.
  - by apply (vinfo_fails mute_device OSError 3).
  - reflexivity.
Defined.
